(** * MySpot weather card: geolocation acquisition, weather fetch and
      three-hourly forecast sampling (section-cards.tsx)

    The component's effect body is embedded as an event-driven state
    machine over the closure variables of [useEffect]; JavaScript numbers
    are IEEE 754 binary64 values, computed with the executable
    specification of the Corelib ([spec_float], 53 bits of precision,
    maximal exponent 1024). *)

From Stdlib Require Import ZArith List String Bool Lia.
From Stdlib Require Import Floats.SpecFloat.
From Stdlib Require Import Numbers.DecimalString.
Import ListNotations.
Local Open Scope Z_scope.

(** ** JavaScript numbers *)

Module JS.

Definition number := spec_float.

Definition prec : Z := 53.
Definition emax : Z := 1024.

Definition NaN : number := S754_nan.
Definition POSITIVE_INFINITY : number := S754_infinity false.
Definition NEGATIVE_INFINITY : number := S754_infinity true.

(** An integer literal: the nearest double (exact below 2^53). *)
Definition ofZ (z : Z) : number := binary_normalize prec emax z 0 false.

(** A decimal literal [m * 10^-k], e.g. [21.36 = decimal 2136 2]: the
  correctly rounded quotient of two exactly represented integers. *)
Definition decimal (m : Z) (k : nat) : number :=
SFdiv prec emax (ofZ m) (ofZ (10 ^ Z.of_nat k)).

Definition mul : number -> number -> number := SFmul prec emax.
Definition div : number -> number -> number := SFdiv prec emax.

(** [a <= b] on numbers: false as soon as one side is NaN. *)
Definition leb : number -> number -> bool := SFleb.
Definition ltb : number -> number -> bool := SFltb.

Definition isNaN (x : number) : bool :=
match x with S754_nan => true | _ => false end.

Definition isFinite (x : number) : bool :=
match x with
| S754_zero _ | S754_finite _ _ _ => true
| S754_infinity _ | S754_nan => false
end.

(** [Math.round]: the integer nearest to [x], ties towards +infinity;
  NaN, the infinities and the zeros are returned unchanged, and a result
  of zero keeps the sign of [x]. *)
Definition Math_round (x : number) : number :=
match x with
| S754_finite s m e =>
    if 0 <=? e then x
    else
      let k := Z.opp e in
      let n := (2 * cond_Zopp s (Zpos m) + 2 ^ k) / 2 ^ (k + 1) in
      binary_normalize prec emax n 0 s
| _ => x
end.

Definition is_neg_zero (x : number) : bool :=
match x with S754_zero true => true | _ => false end.

Definition is_pos_zero (x : number) : bool :=
match x with S754_zero false => true | _ => false end.

(** [Math.min(a, b)] and [Math.max(a, b)]: NaN if either argument is NaN,
  and -0 is smaller than +0. *)
Definition Math_min (a b : number) : number :=
match SFcompare a b with
| None => NaN
| Some Lt => a
| Some Gt => b
| Some Eq => if is_neg_zero a then a else b
end.

Definition Math_max (a b : number) : number :=
match SFcompare a b with
| None => NaN
| Some Gt => a
| Some Lt => b
| Some Eq => if is_pos_zero a then a else b
end.

(** A number is integral when it is a zero or [m * 2^e] is an integer. *)
Definition is_integer (x : number) : bool :=
match x with
| S754_zero _ => true
| S754_finite _ m e =>
    (0 <=? e) || (Zpos m mod 2 ^ (- e) =? 0)
| _ => false
end.

(** The integer denoted by an integral number (0 otherwise). *)
Definition toZ (x : number) : Z :=
match x with
| S754_finite s m e =>
    if 0 <=? e then cond_Zopp s (Zpos m * 2 ^ e)
    else cond_Zopp s (Zpos m / 2 ^ (- e))
| _ => 0
end.

(** [x || d] on strings: the empty string is falsy. *)
Definition or_else (x d : string) : string :=
match x with EmptyString => d | _ => x end.

(** [String(n)] for a non-negative integer. *)
Definition string_of_nat (n : nat) : string :=
NilZero.string_of_uint (Nat.to_uint n).

End JS.

Import JS.

(** ** Forecast sampling *)

Definition HOURS_TO_DISPLAY : Z := 24.
Definition FORECAST_INTERVAL_HOURS : Z := 3.
(** [Math.floor(HOURS_TO_DISPLAY / FORECAST_INTERVAL_HOURS)] *)
Definition FORECAST_POINTS : nat :=
  Z.to_nat (HOURS_TO_DISPLAY / FORECAST_INTERVAL_HOURS).

(** A raw forecast record.  Every field is optional in the declared type;
    [None] stands for an absent field, that is, for a value whose [typeof]
    is not ["number"] (resp. an absent string or object). *)
Module Raw.
Record main_t := { temp : option number }.
Record entry := {
  dt : option number;
  dt_txt : option string;
  main : option main_t;
  pop : option number
}.
End Raw.

Record HourlyForecastPoint := {
  time : string;
  temp : number;
  pop : number
}.

Definition toPercent (fraction : number) : number :=
  Math_max (ofZ 0) (Math_min (ofZ 100) (Math_round (mul fraction (ofZ 100)))).

(** [.filter(point => point !== null)] *)
Fixpoint filter_non_null {A : Type} (l : list (option A)) : list A :=
  match l with
  | [] => []
  | Some a :: l' => a :: filter_non_null l'
  | None :: l' => filter_non_null l'
  end.

Section Sampler.

(** [Date.parse] and [TIME_FORMATTER.format(new Date(timestamp))] are
    platform functions; they are kept abstract. *)
Variable Date_parse : string -> number.
Variable TIME_FORMATTER_format : number -> string.

(** [entry.dt_txt ? Date.parse(entry.dt_txt) : NaN]: the empty string is
    falsy. *)
Definition timestamp_of_dt_txt (t : option string) : number :=
  match t with
  | Some EmptyString | None => NaN
  | Some s => Date_parse s
  end.

(** [typeof entry.dt === "number" ? entry.dt * 1000
      : entry.dt_txt ? Date.parse(entry.dt_txt) : NaN] *)
Definition entry_timestamp (entry : Raw.entry) : number :=
  match Raw.dt entry with
  | Some dt => mul dt (ofZ 1000)
  | None => timestamp_of_dt_txt (Raw.dt_txt entry)
  end.

(** [entry.main?.temp] *)
Definition entry_temperature (entry : Raw.entry) : option number :=
  match Raw.main entry with
  | Some m => Raw.temp m
  | None => None
  end.

(** [typeof entry.pop === "number" && Number.isFinite(entry.pop)
      ? entry.pop : 0] *)
Definition entry_probability (entry : Raw.entry) : number :=
  match Raw.pop entry with
  | Some p => if isFinite p then p else ofZ 0
  | None => ofZ 0
  end.

(** The callback given to [.map]; an array slot may hold [null]. *)
Definition sample_entry (slot : option Raw.entry) : option HourlyForecastPoint :=
  match slot with
  | None => None
  | Some entry =>
      let timestamp := entry_timestamp entry in
      if negb (isFinite timestamp) then None
      else
        match entry_temperature entry with
        | None => None
        | Some temperature =>
            if isNaN temperature then None
            else
              Some {| time := TIME_FORMATTER_format timestamp;
                      temp := div (Math_round (mul temperature (ofZ 10))) (ofZ 10);
                      pop := toPercent (entry_probability entry) |}
        end
  end.

(** The records the callback keeps: present, with a finite timestamp and
    a temperature that is a number other than NaN. *)
Definition usable (slot : option Raw.entry) : bool :=
  match slot with
  | None => false
  | Some entry =>
      isFinite (entry_timestamp entry)
      && match entry_temperature entry with
         | Some t => negb (isNaN t)
         | None => false
         end
  end.

(** The argument is an array by its declared type, so the
    [Array.isArray] guard never fires. *)
Definition buildThreeHourlyForecast (forecast : list (option Raw.entry))
  : list HourlyForecastPoint :=
  filter_non_null (map sample_entry (firstn FORECAST_POINTS forecast)).

End Sampler.

(** ** Geolocation and provider data *)

Definition MIN_LOCATION_ACCURACY_METERS : number := ofZ 100.
Definition LOCATION_ACQUISITION_TIMEOUT_MS : Z := 15000.

(** [None] in a coordinate field stands for a value whose [typeof] is not
    ["number"]. *)
Record GeolocationCoordinates := {
  latitude : option number;
  longitude : option number;
  accuracy : option number
}.

Record GeolocationPosition := {
  coords : GeolocationCoordinates;
  timestamp : Z
}.

Record GeolocationPositionError := {
  code : Z;
  message : string
}.

Record WeatherDescriptor := {
  description : string;
  icon : string
}.

(** The weather shown by the card ([useState] of the component). *)
Record Weather := {
  name : string;
  w_temp : number;
  w_description : string;
  iconCode : string
}.

(** The parts of the current-conditions body the code reads; an absent
    [message], [error] or [name] is the empty (falsy) string. *)
Record CurrentJson := {
  cj_message : string;
  cj_error : string;
  cj_main_temp : option number;
  cj_weather : option (list (option WeatherDescriptor));
  cj_name : string
}.

Record ForecastJson := {
  fj_message : string;
  fj_error : string;
  fj_list : option (list (option Raw.entry))
}.

Record GeocodeResult := { components_city : option string }.
Record GeocodeJson := { results : list GeocodeResult }.

Record Response := { ok : bool; status : nat }.

(** What a rejected promise carries: an abort [DOMException] or any other
    error with its message. *)
Inductive js_error :=
  | AbortError
  | Error (msg : string).

Inductive settled (A : Type) :=
  | Resolved (a : A)
  | Rejected (e : js_error).
Arguments Resolved {A} a.
Arguments Rejected {A} e.

(** ** Effects and state of one run of the effect *)

Inductive request :=
  | GetCurrentWeather (lat lon : number)
  | GetForecast (lat lon : number)
  | GetReverseGeocode (lat lon : number).

Inductive effect :=
  | ClearWatch (id : nat)
  | ClearTimeout (id : nat)
  | Abort
  | CallFetchWeather (position : GeolocationPosition)
  | HttpGet (r : request)
  | SetWeather (w : option Weather)
  | SetHourlyForecast (l : list HourlyForecastPoint)
  | SetLoading (b : bool)
  | SetError (e : option string).

(** Where [resolveLocationName] is suspended. *)
Inductive geocode_phase :=
  | GeoNoKey
  | GeoAwaitResponse
  | GeoAwaitBody.

(** Where the single [fetchWeatherForPosition] call is suspended. *)
Inductive task :=
  | TIdle
  | TAwaitResponses (latitude longitude : number)
  | TAwaitBodies (latitude longitude : number) (currentRes forecastRes : Response)
  | TAwaitGeocode (current : Weather) (hourlyData : list HourlyForecastPoint)
                  (g : geocode_phase)
  | TDone.

Record state := {
  isCancelled : bool;
  watchId : option nat;
  fallbackTimer : option nat;
  bestPosition : option GeolocationPosition;
  hasFetched : bool;
  pending : task;
  trace : list effect
}.

Definition set_isCancelled (v : bool) (s : state) : state :=
  {| isCancelled := v; watchId := watchId s; fallbackTimer := fallbackTimer s;
     bestPosition := bestPosition s; hasFetched := hasFetched s;
     pending := pending s; trace := trace s |}.

Definition set_watchId (v : option nat) (s : state) : state :=
  {| isCancelled := isCancelled s; watchId := v; fallbackTimer := fallbackTimer s;
     bestPosition := bestPosition s; hasFetched := hasFetched s;
     pending := pending s; trace := trace s |}.

Definition set_fallbackTimer (v : option nat) (s : state) : state :=
  {| isCancelled := isCancelled s; watchId := watchId s; fallbackTimer := v;
     bestPosition := bestPosition s; hasFetched := hasFetched s;
     pending := pending s; trace := trace s |}.

Definition set_bestPosition (v : option GeolocationPosition) (s : state) : state :=
  {| isCancelled := isCancelled s; watchId := watchId s;
     fallbackTimer := fallbackTimer s;
     bestPosition := v; hasFetched := hasFetched s;
     pending := pending s; trace := trace s |}.

Definition set_hasFetched (v : bool) (s : state) : state :=
  {| isCancelled := isCancelled s; watchId := watchId s;
     fallbackTimer := fallbackTimer s;
     bestPosition := bestPosition s; hasFetched := v;
     pending := pending s; trace := trace s |}.

Definition set_pending (v : task) (s : state) : state :=
  {| isCancelled := isCancelled s; watchId := watchId s;
     fallbackTimer := fallbackTimer s;
     bestPosition := bestPosition s; hasFetched := hasFetched s;
     pending := v; trace := trace s |}.

(** Effects are recorded in the order they are performed. *)
Definition emit (e : effect) (s : state) : state :=
  {| isCancelled := isCancelled s; watchId := watchId s;
     fallbackTimer := fallbackTimer s;
     bestPosition := bestPosition s; hasFetched := hasFetched s;
     pending := pending s; trace := trace s ++ [e] |}.

(** ** The component state seen by the renderer *)

Record view := {
  weather : option Weather;
  hourlyForecast : list HourlyForecastPoint;
  loading : bool;
  error : option string
}.

(** The [useState] initial values. *)
Definition initial_view : view :=
  {| weather := None; hourlyForecast := []; loading := true; error := None |}.

Definition apply_effect (v : view) (e : effect) : view :=
  match e with
  | SetWeather w =>
      {| weather := w; hourlyForecast := hourlyForecast v;
         loading := loading v; error := error v |}
  | SetHourlyForecast l =>
      {| weather := weather v; hourlyForecast := l;
         loading := loading v; error := error v |}
  | SetLoading b =>
      {| weather := weather v; hourlyForecast := hourlyForecast v;
         loading := b; error := error v |}
  | SetError m =>
      {| weather := weather v; hourlyForecast := hourlyForecast v;
         loading := loading v; error := m |}
  | _ => v
  end.

(** The component state after the setter calls of a trace. *)
Definition render (tr : list effect) : view :=
  fold_left apply_effect tr initial_view.

Definition is_setter (e : effect) : bool :=
  match e with
  | SetWeather _ | SetHourlyForecast _ | SetLoading _ | SetError _ => true
  | _ => false
  end.

Definition is_fetch_call (e : effect) : bool :=
  match e with CallFetchWeather _ => true | _ => false end.

Definition is_weather_request (e : effect) : bool :=
  match e with
  | HttpGet (GetCurrentWeather _ _) | HttpGet (GetForecast _ _) => true
  | _ => false
  end.

Definition is_geocode_request (e : effect) : bool :=
  match e with HttpGet (GetReverseGeocode _ _) => true | _ => false end.

Definition count_if (f : effect -> bool) (tr : list effect) : nat :=
  List.length (filter f tr).

Notation "s '|>' f" := (f s) (at level 45, left associativity, only parsing).

Definition is_empty (x : string) : bool :=
  match x with EmptyString => true | _ => false end.

Definition describeGeoError (geoError : GeolocationPositionError) : string :=
  match code geoError with
  | 1 => "Location permission was denied."
  | 2 => "Unable to determine your location."
  | 3 => "Timed out while trying to retrieve your location."
  | _ => or_else (message geoError) "Unable to retrieve your location."
  end%string.

(** [typeof v !== "number" || Number.isNaN(v)] *)
Definition not_a_number (v : option number) : bool :=
  match v with
  | None => true
  | Some x => isNaN x
  end.

(** Events delivered to the callbacks registered by the effect. *)
Inductive event :=
  | PositionUpdate (position : GeolocationPosition)
  | PositionError (geoError : GeolocationPositionError)
  | TimerFired
  | Unmount
  | WeatherSettled (r : settled (Response * Response))
  | WeatherBodies (currentJson : option CurrentJson)
                  (forecastJson : option ForecastJson)
  | GeocodeSkipped
  | GeocodeSettled (r : settled Response)
  | GeocodeBody (data : option GeocodeJson).

Section Pipeline.

Variable OPENWEATHER_API_KEY : string.
Variable OPENCAGE_API_KEY : string.
Variable Date_parse : string -> number.
Variable TIME_FORMATTER_format : number -> string.
(** [String.prototype.trim] *)
Variable String_trim : string -> string.

Definition stopWatching (s : state) : state :=
  let s :=
    match watchId s with
    | Some id => s |> emit (ClearWatch id) |> set_watchId None
    | None => s
    end in
  match fallbackTimer s with
  | Some id => s |> emit (ClearTimeout id) |> set_fallbackTimer None
  | None => s
  end.

Definition reportLocationError (message : string) (s : state) : state :=
  if isCancelled s then s
  else
    s |> stopWatching
      |> emit (SetWeather None)
      |> emit (SetHourlyForecast [])
      |> emit (SetError (Some message))
      |> emit (SetLoading false).

(** [fetchWeatherForPosition] up to its first [await]. *)
Definition fetchWeatherForPosition (position : GeolocationPosition)
           (s : state) : state :=
  if isCancelled s then s
  else
    match latitude (coords position), longitude (coords position) with
    | Some lat, Some lon =>
        if isNaN lat || isNaN lon then
          reportLocationError "Received invalid coordinates from geolocation." s
        else if is_empty OPENWEATHER_API_KEY then
          reportLocationError
            "Missing OpenWeatherMap API key (VITE_OPENWEATHER_API_KEY)." s
        else
          s |> emit (SetLoading true)
            |> emit (SetError None)
            |> emit (HttpGet (GetCurrentWeather lat lon))
            |> emit (HttpGet (GetForecast lat lon))
            |> set_pending (TAwaitResponses lat lon)
    | _, _ =>
        reportLocationError "Received invalid coordinates from geolocation." s
    end.

(** [hasFetched = true; stopWatching(); void fetchWeatherForPosition(p)] *)
Definition fetch_once (position : GeolocationPosition) (s : state) : state :=
  s |> set_hasFetched true
    |> stopWatching
    |> emit (CallFetchWeather position)
    |> fetchWeatherForPosition position.

Definition accuracyValue (position : GeolocationPosition) : number :=
  match accuracy (coords position) with
  | Some a => if isFinite a then a else POSITIVE_INFINITY
  | None => POSITIVE_INFINITY
  end.

Definition maybeUsePosition (position : GeolocationPosition)
           (s : state) : state :=
  if isCancelled s || hasFetched s then s
  else if not_a_number (latitude (coords position))
          || not_a_number (longitude (coords position)) then s
  else
    let s := set_bestPosition (Some position) s in
    if leb (accuracyValue position) MIN_LOCATION_ACCURACY_METERS then
      fetch_once position s
    else s.

Definition handleGeoError (geoError : GeolocationPositionError)
           (s : state) : state :=
  if isCancelled s then s
  else
    match bestPosition s with
    | Some best =>
        if negb (hasFetched s) then fetch_once best s
        else reportLocationError (describeGeoError geoError) s
    | None => reportLocationError (describeGeoError geoError) s
    end.

(** The callback of [window.setTimeout]. *)
Definition onFallbackTimer (s : state) : state :=
  if isCancelled s || hasFetched s then s
  else
    match bestPosition s with
    | Some best => fetch_once best s
    | None => reportLocationError "Unable to refine your location." s
    end.

(** The function returned by the effect. *)
Definition cleanup (s : state) : state :=
  s |> set_isCancelled true |> stopWatching |> emit Abort.

(** *** The rest of [fetchWeatherForPosition], after each [await] *)

Definition finally_ (s : state) : state :=
  set_pending TDone (if isCancelled s then s else emit (SetLoading false) s).

Definition is_abort (err : js_error) : bool :=
  match err with AbortError => true | Error _ => false end.

Definition error_message (err : js_error) : string :=
  match err with AbortError => "" | Error m => m end.

Definition catch_ (err : js_error) (s : state) : state :=
  if is_abort err || isCancelled s then finally_ s
  else
    s |> emit (SetWeather None)
      |> emit (SetHourlyForecast [])
      |> emit (SetError
                 (Some (or_else (error_message err)
                                "Failed to fetch weather data.")))
      |> finally_.

(** The message thrown for a response that is not [ok]; [detail] is
    [json.message || json.error] when the body was parsed. *)
Definition http_error (res : Response) (detail : option string) : string :=
  match detail with
  | Some (String c d) =>
      (string_of_nat (status res) ++ " " ++ String c d)%string
  | _ => ("HTTP " ++ string_of_nat (status res))%string
  end.

Definition current_detail (currentJson : option CurrentJson) : option string :=
  option_map (fun j => or_else (cj_message j) (cj_error j)) currentJson.

Definition forecast_detail (forecastJson : option ForecastJson) : option string :=
  option_map (fun j => or_else (fj_message j) (fj_error j)) forecastJson.

(** The checks between the second and the third [await]: the thrown
    message, or the current conditions and the sampled forecast. *)
Definition check_bodies (currentRes forecastRes : Response)
           (currentJson : option CurrentJson)
           (forecastJson : option ForecastJson)
  : string + (Weather * list HourlyForecastPoint) :=
  if negb (ok currentRes) then
    inl (http_error currentRes (current_detail currentJson))
  else if negb (ok forecastRes) then
    inl (http_error forecastRes (forecast_detail forecastJson))
  else
    match currentJson with
    | Some {| cj_main_temp := Some t; cj_weather := Some (Some w0 :: _);
              cj_name := n |} =>
        match forecastJson with
        | Some {| fj_list := Some (e :: l) |} =>
            match buildThreeHourlyForecast Date_parse TIME_FORMATTER_format
                    (e :: l) with
            | [] => inl "Unable to prepare hourly forecast data."%string
            | hourlyData =>
                inr ({| name := n; w_temp := t;
                        w_description := description w0;
                        iconCode := icon w0 |}, hourlyData)
            end
        | _ => inl "Hourly forecast data is unavailable."%string
        end
    | _ => inl "Current weather data is unavailable."%string
    end.

(** The code after [await resolveLocationName(...)]. *)
Definition after_geocode (geocodedName : option string) (current : Weather)
           (hourlyData : list HourlyForecastPoint) (s : state) : state :=
  if isCancelled s then finally_ s
  else
    s |> emit (SetWeather
                 (Some {| name := match geocodedName with
                                  | Some n => or_else n (name current)
                                  | None => name current
                                  end;
                          w_temp := w_temp current;
                          w_description := w_description current;
                          iconCode := iconCode current |}))
      |> emit (SetHourlyForecast hourlyData)
      |> finally_.

Definition on_weather_settled (r : settled (Response * Response))
           (s : state) : state :=
  match pending s with
  | TAwaitResponses lat lon =>
      match r with
      | Rejected err => catch_ err s
      | Resolved (currentRes, forecastRes) =>
          set_pending (TAwaitBodies lat lon currentRes forecastRes) s
      end
  | _ => s
  end.

(** [resolveLocationName] up to its first [await]. *)
Definition resolveLocationName_start (lat lon : number) (s : state)
  : state * geocode_phase :=
  if is_empty OPENCAGE_API_KEY then (s, GeoNoKey)
  else (emit (HttpGet (GetReverseGeocode lat lon)) s, GeoAwaitResponse).

Definition on_weather_bodies (currentJson : option CurrentJson)
           (forecastJson : option ForecastJson) (s : state) : state :=
  match pending s with
  | TAwaitBodies lat lon currentRes forecastRes =>
      match check_bodies currentRes forecastRes currentJson forecastJson with
      | inl msg => catch_ (Error msg) s
      | inr (current, hourlyData) =>
          let (s, g) := resolveLocationName_start lat lon s in
          set_pending (TAwaitGeocode current hourlyData g) s
      end
  | _ => s
  end.

(** The city of the first result, trimmed, when it is a non-empty
    string. *)
Definition city_of (data : option GeocodeJson) : option string :=
  match data with
  | Some {| results := {| components_city := Some city |} :: _ |} =>
      if is_empty (String_trim city) then None else Some (String_trim city)
  | _ => None
  end.

Definition on_geocode_skipped (s : state) : state :=
  match pending s with
  | TAwaitGeocode current hourlyData GeoNoKey =>
      after_geocode None current hourlyData s
  | _ => s
  end.

Definition on_geocode_settled (r : settled Response) (s : state) : state :=
  match pending s with
  | TAwaitGeocode current hourlyData GeoAwaitResponse =>
      match r with
      | Rejected _ => after_geocode None current hourlyData s
      | Resolved response =>
          if negb (ok response) then after_geocode None current hourlyData s
          else set_pending (TAwaitGeocode current hourlyData GeoAwaitBody) s
      end
  | _ => s
  end.

Definition on_geocode_body (data : option GeocodeJson) (s : state) : state :=
  match pending s with
  | TAwaitGeocode current hourlyData GeoAwaitBody =>
      after_geocode (city_of data) current hourlyData s
  | _ => s
  end.

(** *** The event loop *)

Definition step (s : state) (ev : event) : state :=
  match ev with
  | PositionUpdate position => maybeUsePosition position s
  | PositionError geoError => handleGeoError geoError s
  | TimerFired => onFallbackTimer s
  | Unmount => cleanup s
  | WeatherSettled r => on_weather_settled r s
  | WeatherBodies currentJson forecastJson =>
      on_weather_bodies currentJson forecastJson s
  | GeocodeSkipped => on_geocode_skipped s
  | GeocodeSettled r => on_geocode_settled r s
  | GeocodeBody data => on_geocode_body data s
  end.

(** The platform calls the position callbacks only while the watch is
    registered and the timer callback only while the timer is armed;
    [watchId] and [fallbackTimer] are non-null exactly then. *)
Definition enabled (s : state) (ev : event) : bool :=
  match ev with
  | PositionUpdate _ | PositionError _ =>
      match watchId s with Some _ => true | None => false end
  | TimerFired =>
      match fallbackTimer s with Some _ => true | None => false end
  | _ => true
  end.

Definition deliver (s : state) (ev : event) : state :=
  if enabled s ev then step s ev else s.

Definition run (s : state) (evs : list event) : state :=
  fold_left deliver evs s.

(** Any order of callback invocations, whether the platform would
    deliver them or not. *)
Definition run_unguarded (s : state) (evs : list event) : state :=
  fold_left step evs s.

(** The state once the effect body has run with geolocation support:
    the watch and the timer are registered under the ids the platform
    returned. *)
Definition mounted (watch timer : nat) : state :=
  {| isCancelled := false; watchId := Some watch;
     fallbackTimer := Some timer; bestPosition := None;
     hasFetched := false; pending := TIdle; trace := [] |}.

(** The state once the effect body has run without geolocation support:
    nothing is registered. *)
Definition unsupported : state :=
  {| isCancelled := false; watchId := None; fallbackTimer := None;
     bestPosition := None; hasFetched := false; pending := TIdle;
     trace := [SetError (Some "Geolocation is not supported by your browser."%string);
               SetLoading false] |}.

End Pipeline.

(** ** Auxiliary notions used in the statements *)

Definition option_to_list {A : Type} (o : option A) : list A :=
  match o with Some a => [a] | None => [] end.

(** The coordinate test of [maybeUsePosition], negated. *)
Definition valid_coordinates (position : GeolocationPosition) : bool :=
  negb (not_a_number (latitude (coords position))
        || not_a_number (longitude (coords position))).

(** The most recent update with valid coordinates, if any. *)
Fixpoint latest_valid (ps : list GeolocationPosition)
  : option GeolocationPosition :=
  match ps with
  | [] => None
  | p :: ps' =>
      match latest_valid ps' with
      | Some q => Some q
      | None => if valid_coordinates p then Some p else None
      end
  end.

(** The update of a list with the smallest accuracy value (the earliest
    one among equals), for comparison with [latest_valid]. *)
Fixpoint most_accurate (ps : list GeolocationPosition)
  : option GeolocationPosition :=
  match ps with
  | [] => None
  | p :: ps' =>
      match most_accurate ps' with
      | Some q => if ltb (accuracyValue q) (accuracyValue p) then Some q else Some p
      | None => Some p
      end
  end.

(** A task is in flight between the first [await] of
    [fetchWeatherForPosition] and its end. *)
Definition in_flight (t : task) : bool :=
  match t with
  | TAwaitResponses _ _ | TAwaitBodies _ _ _ _ | TAwaitGeocode _ _ _ => true
  | TIdle | TDone => false
  end.

(** ** Concrete data for the examples *)

Definition fix_at (lat lon acc : number) (t : Z) : GeolocationPosition :=
  {| coords := {| latitude := Some lat; longitude := Some lon;
                  accuracy := Some acc |};
     timestamp := t |}.

(** Tokyo station, at three accuracies. *)
Definition fix_150m : GeolocationPosition :=
  fix_at (decimal 356812 4) (decimal 1397671 4) (ofZ 150) 1.
Definition fix_500m : GeolocationPosition :=
  fix_at (decimal 356812 4) (decimal 1397671 4) (ofZ 500) 2.
Definition fix_20m : GeolocationPosition :=
  fix_at (decimal 356812 4) (decimal 1397671 4) (ofZ 20) 3.
Definition fix_nan : GeolocationPosition :=
  fix_at NaN (decimal 1397671 4) (ofZ 20) 4.
Definition fix_infinite : GeolocationPosition :=
  fix_at POSITIVE_INFINITY (ofZ 0) (ofZ 10) 5.

Definition timeout_error : GeolocationPositionError :=
  {| code := 3; message := "Timeout expired" |}.

(** [{dt: 1700000000, main: {temp: 21.36}, pop: 0.42}] *)
Definition record_21_36 : Raw.entry :=
  {| Raw.dt := Some (ofZ 1700000000); Raw.dt_txt := None;
     Raw.main := Some {| Raw.temp := Some (decimal 2136 2) |};
     Raw.pop := Some (decimal 42 2) |}.

(** The same record without [pop]. *)
Definition record_no_pop : Raw.entry :=
  {| Raw.dt := Some (ofZ 1700000000); Raw.dt_txt := None;
     Raw.main := Some {| Raw.temp := Some (decimal 2136 2) |};
     Raw.pop := None |}.

Definition record_nan_temp : Raw.entry :=
  {| Raw.dt := Some (ofZ 1700000000); Raw.dt_txt := None;
     Raw.main := Some {| Raw.temp := Some NaN |};
     Raw.pop := Some (decimal 42 2) |}.

Definition record_infinite_temp : Raw.entry :=
  {| Raw.dt := Some (ofZ 1700000000); Raw.dt_txt := None;
     Raw.main := Some {| Raw.temp := Some POSITIVE_INFINITY |};
     Raw.pop := None |}.

(** Stand-ins for the platform functions in the examples. *)
Definition example_Date_parse (_ : string) : number := NaN.
Definition example_format (_ : number) : string := "09:00".
Definition example_trim (s : string) : string := s.

(** The effects performed between two states of a run. *)
Definition new_effects (s s' : state) : list effect :=
  skipn (List.length (trace s)) (trace s').

(** An error is never shown together with weather data. *)
Definition consistent (v : view) : Prop :=
  error v <> None -> weather v = None /\ hourlyForecast v = [].

(** While the fetch is in flight no error is shown and neither the watch
    nor the timer is registered. *)
Definition pipeline_invariant (s : state) : Prop :=
  consistent (render (trace s))
  /\ (in_flight (pending s) = true ->
      error (render (trace s)) = None
      /\ watchId s = None /\ fallbackTimer s = None).

Definition example_response : Response := {| ok := true; status := 200 |}.

Definition example_current : CurrentJson :=
  {| cj_message := ""; cj_error := ""; cj_main_temp := Some (decimal 183 1);
     cj_weather := Some [Some {| description := "clear sky"; icon := "01d" |}];
     cj_name := "Tokyo" |}.

Definition example_forecast : ForecastJson :=
  {| fj_message := ""; fj_error := "";
     fj_list := Some [Some record_21_36; Some record_no_pop] |}.

(** A run suspended at the second [await], both responses received. *)
Definition example_awaiting_bodies : state :=
  {| isCancelled := false; watchId := None; fallbackTimer := None;
     bestPosition := Some fix_20m; hasFetched := true;
     pending := TAwaitBodies (decimal 356812 4) (decimal 1397671 4)
                  example_response example_response;
     trace := [] |}.

(** ** What the component renders *)

(** [ChartLineMultiple]: the chart is drawn only for a non-empty series. *)
Definition hasData (chartData : list HourlyForecastPoint) : bool :=
  (0 <? List.length chartData)%nat.

(** The branches of the "Current Weather" card. *)
Inductive screen :=
  | Skeleton
  | ErrorText (msg : string)
  | WeatherCard (w : Weather) (chart : bool)
  | NoWeatherData.

(** [loading ? skeleton : error ? message : weather ? card : "No weather
    data available."]; the empty string is falsy. *)
Definition SectionCards_render (v : view) : screen :=
  if loading v then Skeleton
  else
    match error v with
    | Some (String c m) => ErrorText (String c m)
    | _ =>
        match weather v with
        | Some w => WeatherCard w (hasData (hourlyForecast v))
        | None => NoWeatherData
        end
    end.

(** ** Invariants of a run *)

Definition is_teardown (e : effect) : bool :=
  match e with ClearWatch _ | ClearTimeout _ => true | _ => false end.

Definition is_request (e : effect) : bool :=
  match e with HttpGet _ => true | _ => false end.

(** Either nothing has happened yet and both the watch and the timer are
    registered, or both have been cleared, once each. *)
Definition session_invariant (watch timer : nat) (s : state) : Prop :=
  ((watchId s = Some watch /\ fallbackTimer s = Some timer
    /\ trace s = [] /\ hasFetched s = false /\ isCancelled s = false
    /\ pending s = TIdle)
   \/ (watchId s = None /\ fallbackTimer s = None
       /\ filter is_teardown (trace s) = [ClearWatch watch; ClearTimeout timer]))
  /\ (pending s <> TIdle -> hasFetched s = true).

Definition view_invariant (s : state) : Prop :=
  (forall cur h g,
      pending s = TAwaitGeocode cur h g ->
      h <> [] /\ (List.length h <= 8)%nat)
  /\ (forall w,
         weather (render (trace s)) = Some w ->
         hourlyForecast (render (trace s)) <> []
         /\ (List.length (hourlyForecast (render (trace s))) <= 8)%nat
         /\ loading (render (trace s)) = false
         /\ pending s = TDone)
  /\ (forall m, error (render (trace s)) = Some m -> is_empty m = false)
  /\ (pending s <> TIdle -> hasFetched s = true).

Definition loading_invariant (s : state) : Prop :=
  pipeline_invariant s
  /\ (pending s <> TIdle -> hasFetched s = true)
  /\ (isCancelled s = false ->
      (in_flight (pending s) = true -> loading (render (trace s)) = true)
      /\ (pending s = TDone -> loading (render (trace s)) = false)).

Definition example_unauthorized : Response := {| ok := false; status := 401 |}.

Definition example_invalid_key : CurrentJson :=
  {| cj_message := "invalid key"; cj_error := ""; cj_main_temp := None;
     cj_weather := None; cj_name := "" |}.

(** A run suspended at the third [await], the geocoding request sent. *)
Definition example_awaiting_geocode : state :=
  {| isCancelled := false; watchId := None; fallbackTimer := None;
     bestPosition := Some fix_20m; hasFetched := true;
     pending := TAwaitGeocode
                  {| name := "Tokyo"; w_temp := decimal 183 1;
                     w_description := "clear sky"; iconCode := "01d" |}
                  [{| time := "09:00"; temp := decimal 214 1; pop := ofZ 42 |}]
                  GeoAwaitResponse;
     trace := [] |}.

(** * Facts about the number operations *)

Section FloatFacts.

Lemma shr_1_nonneg mrs : 0 <= shr_m mrs -> 0 <= shr_m (shr_1 mrs).
Proof.
  destruct mrs as [m r t]; simpl.
  destruct m as [|p|p]; simpl; try lia; destruct p; simpl; lia.
Qed.

Lemma iter_shr_1_nonneg p : forall mrs,
  0 <= shr_m mrs -> 0 <= shr_m (iter_pos shr_1 p mrs).
Proof.
  induction p as [p IH|p IH|]; intros mrs H; simpl.
  - apply IH, IH, shr_1_nonneg, H.
  - apply IH, IH, H.
  - apply shr_1_nonneg, H.
Qed.

Lemma shr_nonneg mrs e n : 0 <= shr_m mrs -> 0 <= shr_m (fst (shr mrs e n)).
Proof.
  intros H. destruct n; simpl; auto using iter_shr_1_nonneg.
Qed.

Lemma shr_record_of_loc_m m l : shr_m (shr_record_of_loc m l) = m.
Proof. destruct l as [|[]]; reflexivity. Qed.

Lemma shr_fexp_nonneg p em m e l :
  0 <= m -> 0 <= shr_m (fst (shr_fexp p em m e l)).
Proof.
  intros H. unfold shr_fexp. apply shr_nonneg.
  now rewrite shr_record_of_loc_m.
Qed.

Lemma round_nearest_even_nonneg m l : 0 <= m -> 0 <= round_nearest_even m l.
Proof.
  intros H. destruct l as [|[]]; simpl; try lia.
  destruct (Z.even m); lia.
Qed.

Lemma binary_round_aux_not_nan p em sx mx ex lx :
  0 <= mx -> isNaN (binary_round_aux p em sx mx ex lx) = false.
Proof.
  intros H. unfold binary_round_aux.
  pose proof (shr_fexp_nonneg p em mx ex lx H) as H1.
  destruct (shr_fexp p em mx ex lx) as [mrs' e']. simpl in H1.
  pose proof (shr_fexp_nonneg p em _ e' loc_Exact
                (round_nearest_even_nonneg _ (loc_of_shr_record mrs') H1)) as H2.
  destruct (shr_fexp p em (round_nearest_even (shr_m mrs') (loc_of_shr_record mrs'))
              e' loc_Exact) as [mrs'' e'']. simpl in H2.
  destruct (shr_m mrs'') as [|q|q]; try reflexivity.
  - destruct (e'' <=? em - p); reflexivity.
  - lia.
Qed.

Lemma binary_normalize_not_nan p em m e sz :
  isNaN (binary_normalize p em m e sz) = false.
Proof.
  destruct m as [|q|q]; simpl; try reflexivity;
    unfold binary_round;
    destruct (shl_align q e (fexp p em (Z.pos (digits2_pos q) + e))) as [mz ez];
    apply binary_round_aux_not_nan; lia.
Qed.

Lemma mul_finite_not_nan x y :
  isFinite x = true -> isFinite y = true -> isNaN (mul x y) = false.
Proof.
  destruct x, y; intros Hx Hy; try discriminate Hx; try discriminate Hy;
    try reflexivity.
  unfold mul, SFmul. apply binary_round_aux_not_nan. lia.
Qed.

Lemma Math_round_not_nan x : isNaN x = false -> isNaN (Math_round x) = false.
Proof.
  destruct x as [| | |s m e]; auto.
  intros _. unfold Math_round. destruct (0 <=? e); [reflexivity|].
  apply binary_normalize_not_nan.
Qed.

Lemma SFcompare_some x y :
  isNaN x = false -> isNaN y = false -> exists c, SFcompare x y = Some c.
Proof.
  destruct x, y; simpl; intros; try discriminate; eauto.
Qed.

Lemma compare_cont_antisym : forall p q c,
  Pos.compare_cont (CompOpp c) q p = CompOpp (Pos.compare_cont c p q).
Proof. intros. symmetry. apply Pos.compare_cont_antisym. Qed.

Lemma SFcompare_antisym x y :
  SFcompare y x = option_map CompOpp (SFcompare x y).
Proof.
  destruct x as [sx|sx| |sx mx ex], y as [sy|sy| |sy my ey]; simpl;
    try reflexivity;
    try (destruct sx; reflexivity); try (destruct sy; reflexivity);
    try (destruct sx, sy; reflexivity).
  destruct sx, sy; simpl; try reflexivity;
    rewrite (Z.compare_antisym ex ey);
    destruct (ex ?= ey); simpl; try reflexivity; f_equal.
  - f_equal. change Eq with (CompOpp Eq) at 1. apply compare_cont_antisym.
  - change Eq with (CompOpp Eq) at 1. apply compare_cont_antisym.
Qed.

End FloatFacts.

(** * The forecast sampler *)

Lemma FORECAST_POINTS_eq : FORECAST_POINTS = 8%nat.
Proof. reflexivity. Qed.

Lemma filter_non_null_app {A} (l1 l2 : list (option A)) :
  filter_non_null (l1 ++ l2) = filter_non_null l1 ++ filter_non_null l2.
Proof.
  induction l1 as [|[a|] l1 IH]; simpl; [reflexivity| |assumption].
  now rewrite IH.
Qed.

Lemma filter_non_null_length {A} (l : list (option A)) :
  (List.length (filter_non_null l) <= List.length l)%nat.
Proof. induction l as [|[a|] l IH]; simpl; lia. Qed.

Lemma Forall_firstn_keeps {A} (P : A -> Prop) n : forall l,
  Forall P l -> Forall P (firstn n l).
Proof.
  induction n as [|n IH]; intros l H; [constructor|].
  destruct H as [|a l Ha Hl]; simpl; constructor; auto.
Qed.

(** Clamping: whatever is not NaN ends between 0 and 100. *)
Lemma clamp_range y :
  isNaN y = false ->
  let r := Math_max (ofZ 0) (Math_min (ofZ 100) y) in
  leb (ofZ 0) r = true /\ leb r (ofZ 100) = true.
Proof.
  intros Hy.
  assert (H100 : isNaN (ofZ 100) = false) by reflexivity.
  destruct (SFcompare_some (ofZ 100) y H100 Hy) as [c Hc].
  pose proof (SFcompare_antisym (ofZ 100) y) as Hanti. rewrite Hc in Hanti.
  cbv zeta. unfold Math_min. rewrite Hc.
  assert (Hm : exists m, (match c with
                          | Eq => if is_neg_zero (ofZ 100) then ofZ 100 else y
                          | Lt => ofZ 100
                          | Gt => y
                          end) = m /\ isNaN m = false /\ leb m (ofZ 100) = true).
  { change (is_neg_zero (ofZ 100)) with false. cbv iota.
    destruct c; eexists; (split; [reflexivity|]); split; auto;
      unfold leb, SFleb; try rewrite Hanti; reflexivity. }
  destruct Hm as (m & -> & Hn & Hle).
  assert (H0 : isNaN (ofZ 0) = false) by reflexivity.
  destruct (SFcompare_some (ofZ 0) m H0 Hn) as [d Hd].
  unfold Math_max. rewrite Hd.
  destruct d.
  - split; reflexivity.
  - split; [unfold leb, SFleb; now rewrite Hd | exact Hle].
  - split; reflexivity.
Qed.

Lemma toPercent_range fraction :
  isFinite fraction = true ->
  leb (ofZ 0) (toPercent fraction) = true
  /\ leb (toPercent fraction) (ofZ 100) = true.
Proof.
  intros Hf. unfold toPercent. apply clamp_range.
  apply Math_round_not_nan, mul_finite_not_nan; [exact Hf|reflexivity].
Qed.

Section SamplerFacts.

Variable Date_parse : string -> number.
Variable TIME_FORMATTER_format : number -> string.

#[local] Abbreviation sample := (sample_entry Date_parse TIME_FORMATTER_format).
#[local] Abbreviation usableb := (usable Date_parse).
#[local] Abbreviation build :=
  (buildThreeHourlyForecast Date_parse TIME_FORMATTER_format).

Lemma sample_entry_usable slot :
  usableb slot = true <-> sample slot <> None.
Proof.
  destruct slot as [e|]; simpl; [|split; [discriminate|congruence]].
  unfold sample_entry, usable.
  destruct (isFinite (entry_timestamp Date_parse e)); simpl;
    [|split; [discriminate|congruence]].
  destruct (entry_temperature e) as [t|]; [|split; [discriminate|congruence]].
  destruct (isNaN t); simpl; split; congruence.
Qed.

Lemma sample_entry_unusable slot :
  usableb slot = false <-> sample slot = None.
Proof.
  pose proof (sample_entry_usable slot) as H.
  destruct (usableb slot), (sample slot); split; intros; try congruence.
  - exfalso. apply (proj1 H); auto.
  - exfalso. assert (true = true) by reflexivity. destruct H as [_ H].
    assert (false = true) by (apply H; discriminate). discriminate.
Qed.

Lemma build_short l :
  (List.length l <= FORECAST_POINTS)%nat ->
  build l = filter_non_null (map sample l).
Proof.
  intros H. unfold buildThreeHourlyForecast. now rewrite firstn_all2.
Qed.

Lemma build_split l1 e l2 :
  (List.length l1 < FORECAST_POINTS)%nat ->
  build (l1 ++ e :: l2)
  = build l1 ++ option_to_list (sample e)
      ++ build (firstn (FORECAST_POINTS - S (List.length l1)) l2).
Proof.
  intros H.
  rewrite (build_short l1) by lia.
  rewrite (build_short (firstn _ l2))
    by (rewrite length_firstn; lia).
  unfold buildThreeHourlyForecast.
  rewrite firstn_app, firstn_all2 by lia.
  replace (FORECAST_POINTS - List.length l1)%nat
    with (S (FORECAST_POINTS - S (List.length l1))) by lia.
  rewrite firstn_cons, map_app, filter_non_null_app. simpl.
  destruct (sample e); reflexivity.
Qed.

Lemma build_all_usable l :
  Forall (fun slot => usableb slot = true) l ->
  List.length (filter_non_null (map sample l)) = List.length l.
Proof.
  induction 1 as [|slot l Hs _ IH]; simpl; [reflexivity|].
  apply sample_entry_usable in Hs.
  destruct (sample slot); [simpl; now rewrite IH|congruence].
Qed.


Lemma build_length forecast : (List.length (build forecast) <= 8)%nat.
Proof.
  unfold buildThreeHourlyForecast.
  etransitivity; [apply filter_non_null_length|].
  rewrite length_map. apply firstn_le_length.
Qed.




End SamplerFacts.





Lemma div_eucl_nonneg a b :
  0 <= a -> 0 < b -> 0 <= fst (Z.div_eucl a b).
Proof.
  intros Ha Hb. pose proof (Z.div_pos a b Ha Hb) as H.
  unfold Z.div in H. now destruct (Z.div_eucl a b).
Qed.

Lemma SFdiv_core_nonneg p em m1 e1 m2 e2 :
  0 <= fst (fst (SFdiv_core_binary p em (Zpos m1) e1 (Zpos m2) e2)).
Proof.
  unfold SFdiv_core_binary.
  set (s := _ - _ - Z.min _ _).
  set (m' := match s with Z0 => Zpos m1 | Zpos _ => Z.shiftl (Zpos m1) s
                     | Zneg _ => 0 end).
  assert (Hm : 0 <= m').
  { subst m'. destruct s; try lia. apply Z.shiftl_nonneg. lia. }
  pose proof (div_eucl_nonneg m' (Zpos m2) Hm ltac:(lia)) as H.
  destruct (Z.div_eucl m' (Zpos m2)) as [q r]. exact H.
Qed.

Lemma div_by_finite_not_nan x s m e :
  isNaN x = false -> isNaN (div x (S754_finite s m e)) = false.
Proof.
  destruct x as [sx|sx| |sx mx ex]; intros Hx; try discriminate Hx;
    try reflexivity.
  unfold div, SFdiv.
  pose proof (SFdiv_core_nonneg prec emax mx ex m e) as H.
  destruct (SFdiv_core_binary prec emax (Zpos mx) ex (Zpos m) e) as [[mz ez] lz].
  apply binary_round_aux_not_nan. exact H.
Qed.

Lemma mul_by_finite_not_nan x s m e :
  isNaN x = false -> isNaN (mul x (S754_finite s m e)) = false.
Proof.
  destruct x as [sx|sx| |sx mx ex]; intros Hx; try discriminate Hx;
    try reflexivity.
  apply mul_finite_not_nan; reflexivity.
Qed.

Lemma leb_not_nan a b : leb a b = true -> isNaN a = false /\ isNaN b = false.
Proof.
  unfold leb, SFleb. destruct a, b; simpl; intros H; try discriminate H;
    split; reflexivity.
Qed.

(** X1: [toPercent] clamps everything except NaN into [0, 100]; NaN stays NaN. *)
Theorem toPercent_clamps (fraction : number) :
  (isNaN fraction = false ->
   isNaN (toPercent fraction) = false
   /\ leb (ofZ 0) (toPercent fraction) = true
   /\ leb (toPercent fraction) (ofZ 100) = true)
  /\ toPercent NaN = NaN
  /\ toPercent POSITIVE_INFINITY = ofZ 100
  /\ toPercent NEGATIVE_INFINITY = ofZ 0.
Proof.
  split; [|repeat split].
  intros Hf.
  assert (Hr : leb (ofZ 0) (toPercent fraction) = true
               /\ leb (toPercent fraction) (ofZ 100) = true).
  { unfold toPercent. apply clamp_range, Math_round_not_nan.
    change (ofZ 100) with (S754_finite false 7036874417766400 (-46)).
    now apply mul_by_finite_not_nan. }
  split; [|exact Hr]. now apply (leb_not_nan _ _ (proj2 Hr)).
Qed.

Lemma toPercent_clamps_witness :
  leb (toPercent (decimal 17 1)) (ofZ 100) = true.
Proof.
  apply (proj1 (toPercent_clamps (decimal 17 1))). reflexivity.
Defined.

Lemma in_filter_non_null {A B} (f : A -> option B) (l : list A) (b : B) :
  In b (filter_non_null (map f l)) -> exists a, In a l /\ f a = Some b.
Proof.
  induction l as [|a l IH]; simpl; [contradiction|].
  destruct (f a) as [b'|] eqn:E.
  - intros [<-|H]; [exists a; auto|].
    destruct (IH H) as (a' & Ha & Hf). exists a'. auto.
  - intros H. destruct (IH H) as (a' & Ha & Hf). exists a'. auto.
Qed.

Section SampledPoints.

Variable Date_parse : string -> number.
Variable TIME_FORMATTER_format : number -> string.

(** X2: Every point handed to the chart has a temperature that is not NaN
    and a probability between 0 and 100, and comes from one of the first
    8 records. *)
Theorem sampled_points_are_numbers
        (forecast : list (option Raw.entry)) (p : HourlyForecastPoint) :
  In p (buildThreeHourlyForecast Date_parse TIME_FORMATTER_format forecast) ->
  isNaN (temp p) = false
  /\ isNaN (pop p) = false
  /\ leb (ofZ 0) (pop p) = true
  /\ leb (pop p) (ofZ 100) = true
  /\ exists entry,
      In (Some entry) (firstn 8 forecast)
      /\ sample_entry Date_parse TIME_FORMATTER_format (Some entry) = Some p.
Proof.
  intros Hin. unfold buildThreeHourlyForecast in Hin.
  apply in_filter_non_null in Hin. destruct Hin as ([entry|] & Hin & Hs);
    [|discriminate Hs].
  assert (Hs' := Hs). unfold sample_entry in Hs.
  destruct (negb (isFinite (entry_timestamp Date_parse entry)));
    [discriminate|].
  destruct (entry_temperature entry) as [t|]; [|discriminate].
  destruct (isNaN t) eqn:Et; [discriminate|].
  injection Hs as <-. cbn [temp pop].
  assert (Hprob : isFinite (entry_probability entry) = true).
  { unfold entry_probability.
    destruct (Raw.pop entry) as [q|]; [|reflexivity].
    destruct (isFinite q) eqn:E; [exact E|reflexivity]. }
  destruct (toPercent_range _ Hprob) as [Hlo Hhi].
  split; [|split; [now apply (leb_not_nan _ _ Hhi)|split;
                   [exact Hlo|split; [exact Hhi|eauto]]]].
  change (ofZ 10) with (S754_finite false 5629499534213120 (-49)).
  apply div_by_finite_not_nan, Math_round_not_nan, mul_by_finite_not_nan, Et.
Qed.

(** X3: A numeric [dt] decides alone: when it is NaN or infinite the record
    is dropped whatever [dt_txt] says, and when it is absent the record
    is dropped unless [dt_txt] is a non-empty string that parses to a
    finite time. *)
Theorem timestamp_selection (entry : Raw.entry) :
  (forall d, Raw.dt entry = Some d -> isFinite d = false ->
             sample_entry Date_parse TIME_FORMATTER_format (Some entry) = None)
  /\ (Raw.dt entry = None ->
      match Raw.dt_txt entry with
      | None | Some EmptyString => True
      | Some s => isFinite (Date_parse s) = false
      end ->
      sample_entry Date_parse TIME_FORMATTER_format (Some entry) = None)
  /\ (forall d p, Raw.dt entry = Some d ->
        sample_entry Date_parse TIME_FORMATTER_format (Some entry) = Some p ->
        time p = TIME_FORMATTER_format (mul d (ofZ 1000))).
Proof.
  unfold sample_entry, entry_timestamp. split; [|split].
  - intros d -> Hd.
    assert (E : isFinite (mul d (ofZ 1000)) = false)
      by (destruct d; try discriminate Hd; reflexivity).
    now rewrite E.
  - intros -> Ht. unfold timestamp_of_dt_txt.
    destruct (Raw.dt_txt entry) as [[|c s]|]; try reflexivity.
    now rewrite Ht.
  - intros d p -> Hs.
    destruct (negb (isFinite (mul d (ofZ 1000)))); [discriminate|].
    destruct (entry_temperature entry) as [t|]; [|discriminate].
    destruct (isNaN t); [discriminate|]. now injection Hs as <-.
Qed.

End SampledPoints.

Lemma sampled_points_are_numbers_witness :
  isNaN (temp {| time := "09:00"; temp := decimal 214 1; pop := ofZ 42 |}) = false.
Proof.
  apply (sampled_points_are_numbers example_Date_parse example_format
           [Some record_21_36]).
  left. reflexivity.
Defined.

Lemma timestamp_selection_witness :
  sample_entry example_Date_parse example_format
    (Some {| Raw.dt := Some NaN; Raw.dt_txt := Some "2023-11-14 22:13:20"%string;
             Raw.main := Some {| Raw.temp := Some (ofZ 20) |};
             Raw.pop := None |}) = None.
Proof.
  apply (proj1 (timestamp_selection example_Date_parse example_format _)
           NaN); reflexivity.
Defined.

(** * The acquisition and fetch pipeline *)

Lemma render_app tr l :
  render (tr ++ l) = fold_left apply_effect l (render tr).
Proof. unfold render. apply fold_left_app. Qed.

Lemma fold_apply_setters l : forall v,
  fold_left apply_effect (filter is_setter l) v = fold_left apply_effect l v.
Proof.
  induction l as [|e l IH]; intros v; [reflexivity|].
  destruct e; simpl; rewrite IH; destruct v; reflexivity.
Qed.

Lemma render_setters tr : render (filter is_setter tr) = render tr.
Proof. apply fold_apply_setters. Qed.

(** Case analysis on whatever a handler branches on. *)
Ltac break_match :=
  match goal with
  | |- context [match ?x with _ => _ end] =>
      lazymatch x with
      | context [match _ with _ => _ end] => fail
      | _ => destruct x eqn:?
      end
  end.

Ltac norm_trace :=
  repeat rewrite <- app_assoc; cbn [app].

Section PipelineFacts.

Variable OPENWEATHER_API_KEY : string.
Variable OPENCAGE_API_KEY : string.
Variable Date_parse : string -> number.
Variable TIME_FORMATTER_format : number -> string.
Variable String_trim : string -> string.

#[local] Abbreviation step_ :=
  (step OPENWEATHER_API_KEY OPENCAGE_API_KEY Date_parse
        TIME_FORMATTER_format String_trim).
#[local] Abbreviation run_ :=
  (run OPENWEATHER_API_KEY OPENCAGE_API_KEY Date_parse
       TIME_FORMATTER_format String_trim).
#[local] Abbreviation run_unguarded_ :=
  (run_unguarded OPENWEATHER_API_KEY OPENCAGE_API_KEY Date_parse
       TIME_FORMATTER_format String_trim).

Local Arguments isNaN : simpl never.
Local Arguments isFinite : simpl never.
Local Arguments is_empty : simpl never.
Local Arguments leb : simpl never.
Local Arguments check_bodies : simpl never.
Local Arguments city_of : simpl never.
Local Arguments or_else : simpl never.
Local Arguments describeGeoError : simpl never.
Local Arguments accuracyValue : simpl never.
Local Arguments not_a_number : simpl never.

Ltac eval_handlers :=
  cbv beta iota zeta delta
    [step maybeUsePosition handleGeoError onFallbackTimer cleanup
     on_weather_settled on_weather_bodies on_geocode_skipped
     on_geocode_settled on_geocode_body fetch_once
     fetchWeatherForPosition resolveLocationName_start
     reportLocationError after_geocode catch_ finally_ stopWatching
     emit set_pending set_hasFetched set_bestPosition set_watchId
     set_fallbackTimer set_isCancelled
     isCancelled watchId fallbackTimer bestPosition hasFetched pending
     trace is_abort orb negb andb mounted] in *.

Ltac crush_step s ev :=
  destruct s as [[] [w|] [f|] b [] p tr]; eval_handlers; try discriminate;
  destruct ev; eval_handlers; subst;
  repeat (break_match; eval_handlers; subst);
  try discriminate; try congruence.

Lemma step_after_cancel s ev :
  isCancelled s = true ->
  isCancelled (step_ s ev) = true
  /\ filter is_setter (trace (step_ s ev)) = filter is_setter (trace s)
  /\ filter is_weather_request (trace (step_ s ev))
     = filter is_weather_request (trace s)
  /\ filter is_fetch_call (trace (step_ s ev))
     = filter is_fetch_call (trace s).
Proof.
  intros H. crush_step s ev;
    repeat split; rewrite ?filter_app; cbn [filter is_setter is_weather_request is_geocode_request is_fetch_call]; rewrite ?app_nil_r; reflexivity.
Qed.

Ltac filters :=
  rewrite ?filter_app;
  cbn [filter is_setter is_weather_request is_geocode_request is_fetch_call];
  rewrite ?app_nil_r.

Lemma run_unguarded_after_cancel evs : forall s,
  isCancelled s = true ->
  isCancelled (run_unguarded_ s evs) = true
  /\ filter is_setter (trace (run_unguarded_ s evs))
     = filter is_setter (trace s).
Proof.
  induction evs as [|ev evs IH]; intros s H; [auto|].
  destruct (step_after_cancel s ev H) as (Hc & Hs & _).
  destruct (IH _ Hc) as [IH1 IH2]. cbn [run_unguarded fold_left].
  split; [exact IH1|]. unfold run_unguarded in IH2. now rewrite IH2.
Qed.

Lemma run_after_cancel evs : forall s,
  isCancelled s = true ->
  isCancelled (run_ s evs) = true
  /\ filter is_setter (trace (run_ s evs)) = filter is_setter (trace s).
Proof.
  induction evs as [|ev evs IH]; intros s H; [auto|].
  cbn [run fold_left]. unfold deliver at 2 4.
  destruct (enabled s ev); [|apply IH, H].
  destruct (step_after_cancel s ev H) as (Hc & Hs & _).
  destruct (IH _ Hc) as [IH1 IH2].
  split; [exact IH1|]. unfold run in IH2. now rewrite IH2.
Qed.

Lemma cleanup_cancels s :
  isCancelled (cleanup s) = true
  /\ filter is_setter (trace (cleanup s)) = filter is_setter (trace s).
Proof.
  destruct s as [c [w|] [f|] b h p tr]; eval_handlers; split;
    filters; reflexivity.
Qed.

Lemma render_same_setters tr tr' :
  filter is_setter tr = filter is_setter tr' -> render tr = render tr'.
Proof.
  intros H. rewrite <- (render_setters tr), <- (render_setters tr').
  now rewrite H.
Qed.

(** C9: once the cleanup has run, no event changes the component state:
    no setter is called any more, whatever arrives afterwards (position
    updates, the timer, responses, bodies, rejections) and whatever the
    fetch was waiting for; and a request rejected by an abort never sets
    the error. *)
Theorem no_state_change_after_cancel (s : state) (evs : list event) :
  isCancelled (run_unguarded_ (step_ s Unmount) evs) = true
  /\ filter is_setter (trace (run_unguarded_ (step_ s Unmount) evs))
     = filter is_setter (trace s)
  /\ render (trace (run_unguarded_ (step_ s Unmount) evs)) = render (trace s)
  /\ render (trace (run_ (step_ s Unmount) evs)) = render (trace s)
  /\ error (render (trace (step_ s (WeatherSettled (Rejected AbortError)))))
     = error (render (trace s)).
Proof.
  cbn [step].
  destruct (cleanup_cancels s) as [Hc Hs].
  destruct (run_unguarded_after_cancel evs _ Hc) as [H1 H2].
  destruct (run_after_cancel evs _ Hc) as [H3 H4].
  split; [exact H1|]. split; [congruence|].
  split; [apply render_same_setters; congruence|].
  split; [apply render_same_setters; congruence|].
  destruct s as [[] w f b h [] tr]; eval_handlers; try reflexivity;
    rewrite render_app; cbn [fold_left apply_effect error]; reflexivity.
Qed.

(** What one step does to the fetch decision. *)
Lemma step_fetch_calls s ev :
  (hasFetched s = true ->
   hasFetched (step_ s ev) = true
   /\ filter is_fetch_call (trace (step_ s ev))
      = filter is_fetch_call (trace s)
   /\ filter is_weather_request (trace (step_ s ev))
      = filter is_weather_request (trace s))
  /\ (hasFetched s = false ->
      (filter is_fetch_call (trace (step_ s ev))
       = filter is_fetch_call (trace s)
       /\ filter is_weather_request (trace (step_ s ev))
          = filter is_weather_request (trace s))
      \/ (exists p,
             filter is_fetch_call (trace (step_ s ev))
             = filter is_fetch_call (trace s) ++ [CallFetchWeather p]
             /\ (List.length (filter is_weather_request (trace (step_ s ev)))
                 <= List.length (filter is_weather_request (trace s)) + 2)%nat
             /\ hasFetched (step_ s ev) = true
             /\ watchId (step_ s ev) = None
             /\ fallbackTimer (step_ s ev) = None)).
Proof.
  split; intros H.
  - crush_step s ev; repeat split; filters; reflexivity.
  - crush_step s ev;
      first [ left; split; filters; reflexivity
            | right; eexists; repeat split; filters;
              rewrite ?length_app; cbn [List.length]; try reflexivity; lia ].
Qed.

Lemma fetch_calls_invariant evs : forall s,
  (count_if is_fetch_call (trace s) <= 1)%nat ->
  (hasFetched s = false -> filter is_fetch_call (trace s) = []) ->
  let s' := run_unguarded_ s evs in
  (count_if is_fetch_call (trace s') <= 1)%nat
  /\ (hasFetched s' = false -> filter is_fetch_call (trace s') = []).
Proof.
  induction evs as [|ev evs IH]; intros s H1 H2; [split; assumption|].
  cbn [run_unguarded fold_left]. apply IH.
  - destruct (step_fetch_calls s ev) as [Ht Hf].
    destruct (hasFetched s) eqn:E.
    + destruct (Ht eq_refl) as (_ & Heq & _). unfold count_if in *.
      now rewrite Heq.
    + destruct (Hf eq_refl) as [[Heq _]|(p & Heq & _)];
        unfold count_if in *; rewrite Heq, ?length_app, H2 by reflexivity;
        cbn; lia.
  - destruct (step_fetch_calls s ev) as [Ht Hf].
    destruct (hasFetched s) eqn:E.
    + destruct (Ht eq_refl) as (Hh & _). congruence.
    + destruct (Hf eq_refl) as [[Heq _]|(p & _ & _ & Hh & _)].
      * intros _. rewrite Heq. now apply H2.
      * congruence.
Qed.


Lemma update_below_threshold p s :
  isCancelled s = false ->
  hasFetched s = false ->
  leb (accuracyValue p) MIN_LOCATION_ACCURACY_METERS = false ->
  step_ s (PositionUpdate p)
  = if valid_coordinates p then set_bestPosition (Some p) s else s.
Proof.
  intros Hc Hh Hacc. cbn [step]. unfold maybeUsePosition, valid_coordinates.
  rewrite Hc, Hh, Hacc. cbn [orb].
  destruct (not_a_number (latitude (coords p))
            || not_a_number (longitude (coords p))); reflexivity.
Qed.

Lemma updates_keep_latest ps : forall s,
  isCancelled s = false ->
  hasFetched s = false ->
  watchId s <> None ->
  Forall (fun p => leb (accuracyValue p) MIN_LOCATION_ACCURACY_METERS = false)
         ps ->
  run_ s (map PositionUpdate ps)
  = match latest_valid ps with
    | Some q => set_bestPosition (Some q) s
    | None => s
    end.
Proof.
  induction ps as [|p ps IH]; intros s Hc Hh Hw Hall; [reflexivity|].
  inversion Hall as [|? ? Hp Hps]; subst.
  cbn [map run fold_left latest_valid]. unfold deliver at 2.
  cbn [enabled]. destruct (watchId s) eqn:Ew; [|congruence].
  rewrite update_below_threshold by assumption.
  fold (run_ (if valid_coordinates p then set_bestPosition (Some p) s else s)
             (map PositionUpdate ps)).
  rewrite IH; try assumption.
  - destruct (latest_valid ps); destruct (valid_coordinates p); reflexivity.
  - destruct (valid_coordinates p); assumption.
  - destruct (valid_coordinates p); assumption.
  - destruct (valid_coordinates p); cbn; congruence.
Qed.

(** C1, as the code has it: while no update meets the threshold, the fix
    kept in [bestPosition] is the most recent update with valid
    coordinates, whatever its accuracy; it is the fix fetched when the
    timer fires or the stream reports an error, and without any such
    update the timer reports an error instead of fetching. *)
Theorem best_position_is_latest_valid
        (watch timer : nat) (ps : list GeolocationPosition) :
  Forall (fun p => leb (accuracyValue p) MIN_LOCATION_ACCURACY_METERS = false)
         ps ->
  let s := run_ (mounted watch timer) (map PositionUpdate ps) in
  bestPosition s = latest_valid ps
  /\ hasFetched s = false
  /\ trace s = []
  /\ (forall best,
         latest_valid ps = Some best ->
         filter is_fetch_call (trace (step_ s TimerFired))
         = [CallFetchWeather best]
         /\ forall geoError,
             filter is_fetch_call (trace (step_ s (PositionError geoError)))
             = [CallFetchWeather best])
  /\ (latest_valid ps = None ->
      filter is_fetch_call (trace (step_ s TimerFired)) = []
      /\ error (render (trace (step_ s TimerFired)))
         = Some "Unable to refine your location."%string).
Proof.
  intros Hall s. subst s.
  rewrite updates_keep_latest; try assumption; try reflexivity;
    [|cbn; congruence].
  destruct (latest_valid ps) as [q|].
  - do 3 (split; [reflexivity|]). split; [|discriminate].
    intros best E. injection E as <-. split; [|intros geoError];
      eval_handlers; repeat (break_match; eval_handlers);
      filters; reflexivity.
  - do 3 (split; [reflexivity|]). split; [discriminate|].
    intros _. split; reflexivity.
Qed.

(** C3, as the code has it: when the timer fires before any decision,
    a kept fix is fetched; with no fix the run ends in the error state
    with the message "Unable to refine your location.", which is not the
    message of the stream's timeout error. *)
Theorem fallback_timer_outcome (s : state) :
  isCancelled s = false ->
  hasFetched s = false ->
  (forall best,
      bestPosition s = Some best ->
      step_ s TimerFired = fetch_once OPENWEATHER_API_KEY best s
      /\ filter is_fetch_call (trace (step_ s TimerFired))
         = filter is_fetch_call (trace s) ++ [CallFetchWeather best]
      /\ hasFetched (step_ s TimerFired) = true)
  /\ (bestPosition s = None ->
      filter is_fetch_call (trace (step_ s TimerFired))
      = filter is_fetch_call (trace s)
      /\ render (trace (step_ s TimerFired))
         = {| weather := None; hourlyForecast := []; loading := false;
              error := Some "Unable to refine your location."%string |}
      /\ watchId (step_ s TimerFired) = None
      /\ fallbackTimer (step_ s TimerFired) = None)
  /\ (forall msg,
         describeGeoError {| code := 3; message := msg |}
         = "Timed out while trying to retrieve your location."%string)
  /\ "Unable to refine your location."%string
     <> "Timed out while trying to retrieve your location."%string.
Proof.
  intros Hc Hh. split; [|split; [|split; [reflexivity|discriminate]]].
  - intros best Hb. cbn [step]. unfold onFallbackTimer.
    rewrite Hc, Hh, Hb. cbn [orb]. split; [reflexivity|].
    destruct s as [c [w|] [f|] b h q tr]; cbn in Hc, Hh, Hb; subst;
      eval_handlers; repeat (break_match; eval_handlers);
      split; filters; reflexivity.
  - intros Hb.
    destruct s as [c [w|] [f|] b h q tr]; cbn in Hc, Hh, Hb; subst;
      eval_handlers; repeat split; filters; try reflexivity;
      rewrite ?render_app; cbn [fold_left apply_effect];
      destruct (render tr); reflexivity.
Qed.

(** C4, as the code has it: an update whose latitude or longitude is
    not a number or is NaN leaves the whole state as it was, so it is
    neither fetched nor kept as the best fix; and a fetch called with
    such coordinates reports "Received invalid coordinates from
    geolocation." and issues no request. *)
Theorem nan_coordinates_are_discarded
        (position : GeolocationPosition) (s : state) :
  valid_coordinates position = false ->
  step_ s (PositionUpdate position) = s
  /\ (isCancelled s = false ->
      fetchWeatherForPosition OPENWEATHER_API_KEY position s
      = reportLocationError "Received invalid coordinates from geolocation." s
      /\ render (trace (fetchWeatherForPosition OPENWEATHER_API_KEY position s))
         = {| weather := None; hourlyForecast := []; loading := false;
              error := Some "Received invalid coordinates from geolocation."%string |}
      /\ filter is_weather_request
           (trace (fetchWeatherForPosition OPENWEATHER_API_KEY position s))
         = filter is_weather_request (trace s)
      /\ pending (fetchWeatherForPosition OPENWEATHER_API_KEY position s)
         = pending s).
Proof.
  intros Hv. unfold valid_coordinates in Hv. apply negb_false_iff in Hv.
  split.
  - cbn [step]. unfold maybeUsePosition. rewrite Hv.
    destruct (isCancelled s || hasFetched s); reflexivity.
  - intros Hc.
    assert (E : fetchWeatherForPosition OPENWEATHER_API_KEY position s
                = reportLocationError
                    "Received invalid coordinates from geolocation." s).
    { unfold fetchWeatherForPosition. rewrite Hc.
      unfold not_a_number in Hv.
      destruct (latitude (coords position)) as [lat|]; [|reflexivity].
      destruct (longitude (coords position)) as [lon|]; [|reflexivity].
      now rewrite Hv. }
    rewrite E. split; [reflexivity|].
    destruct s as [c [w|] [f|] b h q tr]; cbn in Hc; subst;
      eval_handlers; repeat split; filters; try reflexivity;
      rewrite ?render_app; cbn [fold_left apply_effect];
      destruct (render tr); reflexivity.
Qed.

Lemma check_bodies_ok currentRes forecastRes currentJson forecastJson r :
  check_bodies Date_parse TIME_FORMATTER_format currentRes forecastRes
               currentJson forecastJson = inr r ->
  ok currentRes = true /\ ok forecastRes = true /\ snd r <> [].
Proof.
  unfold check_bodies.
  destruct (ok currentRes); [|discriminate].
  destruct (ok forecastRes); [|discriminate]. cbn [negb].
  repeat (break_match; try discriminate).
  intros H. injection H as <-. cbn [snd].
  split; [reflexivity|]. split; [reflexivity|discriminate].
Qed.

(** C8, as the code has it: the reverse-geocoding request is issued
    only by the step that resumes after both weather bodies have been
    read: both responses were successful, the bodies passed the checks
    and the forecast was sampled; that step issues no weather request,
    and the step that issues the weather requests issues no geocoding
    request. *)
Theorem geocode_request_follows_weather (s : state) (ev : event) :
  (filter is_geocode_request (trace (step_ s ev))
   <> filter is_geocode_request (trace s) ->
   exists lat lon currentRes forecastRes currentJson forecastJson r,
     pending s = TAwaitBodies lat lon currentRes forecastRes
     /\ ev = WeatherBodies currentJson forecastJson
     /\ check_bodies Date_parse TIME_FORMATTER_format currentRes
          forecastRes currentJson forecastJson = inr r
     /\ ok currentRes = true /\ ok forecastRes = true
     /\ trace (step_ s ev)
        = trace s ++ [HttpGet (GetReverseGeocode lat lon)]
     /\ pending (step_ s ev) = TAwaitGeocode (fst r) (snd r) GeoAwaitResponse)
  /\ (filter is_weather_request (trace (step_ s ev))
      <> filter is_weather_request (trace s) ->
      filter is_geocode_request (trace (step_ s ev))
      = filter is_geocode_request (trace s)
      /\ exists lat lon, pending (step_ s ev) = TAwaitResponses lat lon).
Proof.
  split; intros Hne.
  - destruct s as [c w f b h q tr]; cbn [trace pending] in *.
    destruct ev;
      try (exfalso; apply Hne; eval_handlers;
           destruct c, w, f; eval_handlers;
           repeat (break_match; eval_handlers); filters; reflexivity).
    revert Hne. eval_handlers.
    destruct q; try (intros Hne; exfalso; now apply Hne).
    destruct (check_bodies _ _ _ _ _ _) as [msg|[cur hourly]] eqn:Echk.
    + intros Hne; exfalso; apply Hne.
      destruct c; eval_handlers; filters; reflexivity.
    + destruct (check_bodies_ok _ _ _ _ _ Echk) as (H1 & H2 & _).
      destruct (is_empty OPENCAGE_API_KEY); eval_handlers;
        [intros Hne; exfalso; now apply Hne|].
      intros _. do 7 eexists. repeat split; eauto.
  - destruct s as [c w f b h q tr]; cbn [trace pending] in *.
    destruct ev; revert Hne; destruct c, w, f; eval_handlers;
      repeat (break_match; eval_handlers); filters; intros Hne;
      try (exfalso; apply Hne; reflexivity);
      (split; [reflexivity|eauto]).
Qed.

Lemma deliver_keeps_invariant s ev :
  pipeline_invariant s ->
  pipeline_invariant
    (deliver OPENWEATHER_API_KEY OPENCAGE_API_KEY Date_parse
             TIME_FORMATTER_format String_trim s ev).
Proof.
  unfold pipeline_invariant, consistent, deliver, enabled.
  destruct s as [c w f b h q tr]. cbn [trace pending watchId fallbackTimer].
  intros Hinv.
  destruct ev, c, w, f; eval_handlers; try assumption;
    repeat (break_match; eval_handlers); try assumption;
    cbn [in_flight] in *;
    rewrite ?render_app; cbn [fold_left apply_effect];
    destruct (render tr) as [wv hv lv ev']; cbn in *;
    intuition (try discriminate; try congruence).
Qed.

Lemma run_keeps_invariant evs : forall s,
  pipeline_invariant s -> pipeline_invariant (run_ s evs).
Proof.
  induction evs as [|ev evs IH]; intros s H; [exact H|].
  cbn [run fold_left]. apply IH, deliver_keeps_invariant, H.
Qed.

Lemma skipn_length_app {A} (l1 l2 : list A) :
  skipn (List.length l1) (l1 ++ l2) = l2.
Proof. induction l1; simpl; auto. Qed.

Lemma skipn_length_self {A} (l : list A) : skipn (List.length l) l = [].
Proof. induction l; simpl; auto. Qed.

(** C10: whichever step sets an error message also leaves the weather
    absent and the forecast empty, in every state; and in every state
    reached from the start of the effect, with or without geolocation
    support, an error is never shown together with weather data. *)
Theorem error_clears_weather :
  (forall s ev m,
      In (SetError (Some m)) (new_effects s (step_ s ev)) ->
      weather (render (trace (step_ s ev))) = None
      /\ hourlyForecast (render (trace (step_ s ev))) = [])
  /\ (forall watch timer evs,
         consistent (render (trace (run_ (mounted watch timer) evs))))
  /\ (forall evs, consistent (render (trace (run_ unsupported evs)))).
Proof.
  split; [|split].
  - intros s ev m. unfold new_effects.
    destruct s as [c w f b h q tr]. cbn [trace].
    destruct ev, c, w, f; eval_handlers;
      repeat (break_match; eval_handlers);
      norm_trace; rewrite ?skipn_length_app, ?skipn_length_self;
      cbn [In]; intros Hin;
      repeat (destruct Hin as [Hin|Hin]; try discriminate Hin);
      try contradiction;
      rewrite render_app; cbn [fold_left apply_effect weather hourlyForecast];
      split; reflexivity.
  - intros watch timer evs. apply run_keeps_invariant.
    split; [intros H; now contradiction H|discriminate].
  - intros evs. apply run_keeps_invariant.
    split; [intros _; split; reflexivity|discriminate].
Qed.

End PipelineFacts.

Lemma describeGeoError_nonempty geoError :
  is_empty (describeGeoError geoError) = false.
Proof.
  unfold describeGeoError.
  destruct (code geoError) as [|[[]|[]|]|]; try reflexivity;
    destruct (message geoError); reflexivity.
Qed.

Lemma or_else_nonempty x d : is_empty d = false -> is_empty (or_else x d) = false.
Proof. destruct x; auto. Qed.

Lemma append_nonempty a b : is_empty b = false -> is_empty (a ++ b) = false.
Proof. destruct a; auto. Qed.

Section PipelineExtras.

Variable OPENWEATHER_API_KEY : string.
Variable OPENCAGE_API_KEY : string.
Variable Date_parse : string -> number.
Variable TIME_FORMATTER_format : number -> string.
Variable String_trim : string -> string.

#[local] Abbreviation step_ :=
  (step OPENWEATHER_API_KEY OPENCAGE_API_KEY Date_parse
        TIME_FORMATTER_format String_trim).
#[local] Abbreviation run_ :=
  (run OPENWEATHER_API_KEY OPENCAGE_API_KEY Date_parse
       TIME_FORMATTER_format String_trim).
#[local] Abbreviation run_unguarded_ :=
  (run_unguarded OPENWEATHER_API_KEY OPENCAGE_API_KEY Date_parse
       TIME_FORMATTER_format String_trim).

Local Arguments isNaN : simpl never.
Local Arguments isFinite : simpl never.
Local Arguments is_empty : simpl never.
Local Arguments leb : simpl never.
Local Arguments check_bodies : simpl never.
Local Arguments city_of : simpl never.
Local Arguments or_else : simpl never.
Local Arguments describeGeoError : simpl never.
Local Arguments accuracyValue : simpl never.
Local Arguments not_a_number : simpl never.

Ltac eval_handlers :=
  cbv beta iota zeta delta
    [step maybeUsePosition handleGeoError onFallbackTimer cleanup
     on_weather_settled on_weather_bodies on_geocode_skipped
     on_geocode_settled on_geocode_body fetch_once
     fetchWeatherForPosition resolveLocationName_start
     reportLocationError after_geocode catch_ finally_ stopWatching
     emit set_pending set_hasFetched set_bestPosition set_watchId
     set_fallbackTimer set_isCancelled
     isCancelled watchId fallbackTimer bestPosition hasFetched pending
     trace is_abort orb negb andb mounted] in *.

Ltac crush_step s ev :=
  destruct s as [[] [w|] [f|] b [] p tr]; eval_handlers; try discriminate;
  destruct ev; eval_handlers; subst;
  repeat (break_match; eval_handlers; subst);
  try discriminate; try congruence.

Ltac filters :=
  rewrite ?filter_app;
  cbn [filter is_setter is_weather_request is_geocode_request is_fetch_call];
  rewrite ?app_nil_r.


Lemma http_error_nonempty res detail : is_empty (http_error res detail) = false.
Proof.
  unfold http_error. destruct detail as [[|c d]|]; try reflexivity.
  apply append_nonempty. reflexivity.
Qed.

(** What a successful check of the two bodies guarantees, and what a
    failed one throws. *)
Lemma check_bodies_sound currentRes forecastRes currentJson forecastJson :
  match check_bodies Date_parse TIME_FORMATTER_format currentRes forecastRes
                     currentJson forecastJson with
  | inr (current, hourlyData) =>
      ok currentRes = true /\ ok forecastRes = true
      /\ exists cj fj t w0 rest records,
          currentJson = Some cj /\ forecastJson = Some fj
          /\ cj_main_temp cj = Some t
          /\ cj_weather cj = Some (Some w0 :: rest)
          /\ fj_list fj = Some records /\ records <> []
          /\ hourlyData
             = buildThreeHourlyForecast Date_parse TIME_FORMATTER_format records
          /\ hourlyData <> []
          /\ (List.length hourlyData <= 8)%nat
          /\ current = {| name := cj_name cj; w_temp := t;
                          w_description := description w0;
                          iconCode := icon w0 |}
  | inl msg =>
      is_empty msg = false
      /\ (ok currentRes = false ->
          msg = http_error currentRes (current_detail currentJson))
      /\ (ok currentRes = true -> ok forecastRes = false ->
          msg = http_error forecastRes (forecast_detail forecastJson))
      /\ (ok currentRes = true -> ok forecastRes = true ->
          msg = "Current weather data is unavailable."%string
          \/ msg = "Hourly forecast data is unavailable."%string
          \/ msg = "Unable to prepare hourly forecast data."%string)
  end.
Proof.
  unfold check_bodies.
  destruct (ok currentRes); cbn [negb];
    [|split; [apply http_error_nonempty|repeat split; congruence]].
  destruct (ok forecastRes); cbn [negb];
    [|split; [apply http_error_nonempty|repeat split; congruence]].
  destruct currentJson as [[cm ce [t|] [[|[w0|] rest]|] cn]|];
    try (split; [reflexivity|repeat split; try congruence; auto]).
  destruct forecastJson as [[fm fe [[|e l]|]]|];
    try (split; [reflexivity|repeat split; try congruence; auto]).
  destruct (buildThreeHourlyForecast _ _ (e :: l)) as [|p h] eqn:Eb;
    [split; [reflexivity|repeat split; try congruence; auto]|].
  split; [reflexivity|]. split; [reflexivity|].
  exists {| cj_message := cm; cj_error := ce; cj_main_temp := Some t;
            cj_weather := Some (Some w0 :: rest); cj_name := cn |},
    {| fj_message := fm; fj_error := fe; fj_list := Some (e :: l) |},
    t, w0, rest, (e :: l).
  repeat split; try reflexivity; try discriminate; try (symmetry; exact Eb).
  rewrite <- Eb. apply build_length.
Qed.

Ltac filters' :=
  rewrite ?filter_app;
  cbn [filter is_setter is_weather_request is_geocode_request is_fetch_call
       is_teardown is_request];
  rewrite ?app_nil_r.

Lemma step_keeps_session_invariant watch timer s ev :
  session_invariant watch timer s ->
  session_invariant watch timer (step_ s ev).
Proof.
  unfold session_invariant.
  destruct s as [c w f b h q tr]. cbn [trace pending watchId fallbackTimer
                                       hasFetched isCancelled].
  intros [[(Hw & Hf & Ht & Hh & Hc & Hp)|(Hw & Hf & Ht)] Hk]; subst.
  - destruct ev; eval_handlers; repeat (break_match; eval_handlers);
      (split;
       [first [left; repeat split; reflexivity
              |right; repeat split; filters'; reflexivity]
       |intros; first [reflexivity|congruence]]).
  - destruct ev, c; eval_handlers; repeat (break_match; eval_handlers);
      (split;
       [right; repeat split; filters'; try rewrite Ht; reflexivity
       |intros; first [reflexivity|congruence|apply Hk; congruence]]).
Qed.

Lemma run_unguarded_keeps_session_invariant watch timer evs : forall s,
  session_invariant watch timer s ->
  session_invariant watch timer (run_unguarded_ s evs).
Proof.
  induction evs as [|ev evs IH]; intros s H; [exact H|].
  cbn [run_unguarded fold_left]. apply IH, step_keeps_session_invariant, H.
Qed.

(** X4: In any order of callbacks, the watch and the timer are cleared
    together, exactly once each and with the ids they were registered
    under, by the first event that ends the acquisition (a decision, an
    error or the cleanup); until then nothing at all has been emitted. *)
Theorem teardown_exactly_once (watch timer : nat) (evs : list event) :
  let s := run_unguarded_ (mounted watch timer) evs in
  (watchId s = Some watch /\ fallbackTimer s = Some timer /\ trace s = []
   /\ hasFetched s = false /\ isCancelled s = false /\ pending s = TIdle)
  \/ (watchId s = None /\ fallbackTimer s = None
      /\ filter is_teardown (trace s) = [ClearWatch watch; ClearTimeout timer]).
Proof.
  apply (run_unguarded_keeps_session_invariant watch timer evs).
  split; [left; repeat split|intros H; now contradiction H].
Qed.

Ltac use_check_bodies :=
  match goal with
  | H : check_bodies ?p ?f ?a ?b ?c ?d = _ |- _ =>
      let S := fresh "Hsound" in
      pose proof (check_bodies_sound a b c d) as S;
      rewrite H in S; clear H
  end.

Ltac finish_view Hg Hw He Hk :=
  repeat split; intros; subst;
  try (destruct (Hg _ _ _ eq_refl) as [? ?]);
  try (destruct (Hw _ eq_refl) as (? & ? & ? & ?)); subst;
  try (pose proof (He _ eq_refl));
  repeat match goal with
    | H : Some _ = Some _ |- _ => injection H as ?; subst
    | H : TAwaitGeocode _ _ _ = TAwaitGeocode _ _ _ |- _ =>
        injection H as ?; subst
    | H : _ /\ _ |- _ => destruct H
    | H : exists _, _ |- _ => destruct H
    end;
  first [ assumption | congruence | reflexivity
        | apply describeGeoError_nonempty
        | apply or_else_nonempty; reflexivity
        | apply Hk; congruence
        | exfalso; assert (false = true) by (apply Hk; congruence);
          discriminate ].

Lemma step_keeps_view_invariant s ev :
  view_invariant s -> view_invariant (step_ s ev).
Proof.
  unfold view_invariant.
  destruct s as [c w f b h q tr].
  cbn [trace pending hasFetched].
  intros (Hg & Hw & He & Hk).
  destruct ev, c, w, f; eval_handlers; try (repeat split; assumption);
    repeat (break_match; eval_handlers); try (repeat split; assumption);
    try (use_check_bodies; cbn beta iota in Hsound);
    rewrite ?render_app; cbn [fold_left apply_effect];
    destruct (render tr) as [wv hv lv ev'];
    cbn [weather hourlyForecast loading error] in *;
    finish_view Hg Hw He Hk.
Qed.

Lemma run_unguarded_keeps_view_invariant evs : forall s,
  view_invariant s -> view_invariant (run_unguarded_ s evs).
Proof.
  induction evs as [|ev evs IH]; intros s H; [exact H|].
  cbn [run_unguarded fold_left]. apply IH, step_keeps_view_invariant, H.
Qed.

Lemma mounted_view_invariant watch timer :
  view_invariant (mounted watch timer).
Proof.
  repeat split; cbn; intros; try discriminate. now contradiction H.
Qed.

(** X5: Whenever weather is shown, in any order of callbacks, it comes
    with a forecast of 1 to 8 points and the loading flag is off; so the
    card never shows the chart's "no data" text. *)
Theorem ready_has_forecast (watch timer : nat) (evs : list event) :
  let v := render (trace (run_unguarded_ (mounted watch timer) evs)) in
  (forall w,
      weather v = Some w ->
      hourlyForecast v <> []
      /\ (List.length (hourlyForecast v) <= 8)%nat
      /\ loading v = false)
  /\ (forall w chart,
         SectionCards_render v = WeatherCard w chart -> chart = true).
Proof.
  intros v.
  destruct (run_unguarded_keeps_view_invariant evs _
              (mounted_view_invariant watch timer)) as (_ & Hw & _).
  fold v in Hw. split.
  - intros w H. destruct (Hw w H) as (H1 & H2 & H3 & _). auto.
  - intros w chart. unfold SectionCards_render.
    destruct (loading v); [discriminate|].
    destruct (error v) as [[|c m]|];
      try discriminate;
      (destruct (weather v) as [w'|] eqn:E; [|discriminate];
       intros H; injection H as _ <-;
       destruct (Hw w' eq_refl) as (H1 & _);
       unfold hasData; destruct (hourlyForecast v); [congruence|reflexivity]).
Qed.

(** X6: Every error message the component ever holds is a non-empty string,
    so the card shows it as soon as loading is off. *)
Theorem error_messages_are_shown (watch timer : nat) (evs : list event) :
  let v := render (trace (run_unguarded_ (mounted watch timer) evs)) in
  forall m,
    error v = Some m ->
    is_empty m = false
    /\ (loading v = false -> SectionCards_render v = ErrorText m).
Proof.
  intros v m H.
  destruct (run_unguarded_keeps_view_invariant evs _
              (mounted_view_invariant watch timer)) as (_ & _ & He & _).
  fold v in He. specialize (He m H). split; [exact He|].
  intros Hl. unfold SectionCards_render. rewrite Hl, H.
  destruct m; [discriminate|reflexivity].
Qed.

Lemma deliver_keeps_loading_invariant s ev :
  loading_invariant s ->
  loading_invariant
    (deliver OPENWEATHER_API_KEY OPENCAGE_API_KEY Date_parse
             TIME_FORMATTER_format String_trim s ev).
Proof.
  intros (Hinv & Hk & Hl).
  split; [now apply deliver_keeps_invariant|].
  revert Hinv Hk Hl.
  unfold pipeline_invariant, consistent, deliver, enabled.
  destruct s as [c w f b h q tr].
  cbn [trace pending watchId fallbackTimer hasFetched isCancelled].
  intros Hinv Hk Hl.
  destruct ev, c, w, f; eval_handlers; try (split; assumption);
    repeat (break_match; eval_handlers); try (split; assumption);
    cbn [in_flight] in *;
    rewrite ?render_app; cbn [fold_left apply_effect];
    destruct (render tr) as [wv hv lv ev']; cbn in *;
    intuition (try discriminate; try congruence).
Qed.

Lemma run_keeps_loading_invariant evs : forall s,
  loading_invariant s -> loading_invariant (run_ s evs).
Proof.
  induction evs as [|ev evs IH]; intros s H; [exact H|].
  cbn [run fold_left]. apply IH, deliver_keeps_loading_invariant, H.
Qed.

(** X7: With the callbacks delivered as the platform delivers them, a run
    that is not cancelled shows the skeleton for as long as the fetch is
    in flight, with no error, and has the loading flag off once the
    fetch has ended. *)
Theorem loading_until_fetch_ends (watch timer : nat) (evs : list event) :
  let s := run_ (mounted watch timer) evs in
  isCancelled s = false ->
  (in_flight (pending s) = true ->
   loading (render (trace s)) = true
   /\ error (render (trace s)) = None
   /\ SectionCards_render (render (trace s)) = Skeleton)
  /\ (pending s = TDone -> loading (render (trace s)) = false).
Proof.
  intros s Hc.
  assert (H : loading_invariant s).
  { apply run_keeps_loading_invariant.
    repeat split; cbn; intros; try discriminate; now contradiction H. }
  destruct H as ((_ & Hp) & _ & Hl). destruct (Hl Hc) as [H1 H2].
  split; [|exact H2].
  intros Hf. split; [auto|]. split; [now apply Hp|].
  unfold SectionCards_render. now rewrite (H1 Hf).
Qed.

(** X8: A stream error that finds a kept fix and no decision does exactly
    what the timer would do; with no kept fix it reports the message of
    its error code. *)
Theorem stream_error_acts_as_timer
        (s : state) (geoError : GeolocationPositionError) :
  hasFetched s = false ->
  (bestPosition s <> None ->
   step_ s (PositionError geoError) = step_ s TimerFired)
  /\ (bestPosition s = None ->
      isCancelled s = false ->
      render (trace (step_ s (PositionError geoError)))
      = {| weather := None; hourlyForecast := []; loading := false;
           error := Some (describeGeoError geoError) |}
      /\ filter is_fetch_call (trace (step_ s (PositionError geoError)))
         = filter is_fetch_call (trace s)).
Proof.
  intros Hh. split.
  - intros Hb. cbn [step]. unfold handleGeoError, onFallbackTimer.
    rewrite Hh. destruct (isCancelled s); [reflexivity|].
    destruct (bestPosition s); [reflexivity|congruence].
  - intros Hb Hc.
    destruct s as [c [w|] [f|] b h q tr]; cbn in Hh, Hb, Hc; subst;
      eval_handlers; split; filters; try reflexivity;
      rewrite ?render_app; cbn [fold_left apply_effect];
      destruct (render tr); reflexivity.
Qed.

(** X9: An update whose accuracy is missing, NaN or infinite (of either
    sign) counts as infinitely inaccurate: it never triggers the fetch
    and is only kept as the best fix. *)
Theorem unknown_accuracy_never_triggers
        (position : GeolocationPosition) (s : state) :
  isCancelled s = false ->
  hasFetched s = false ->
  match accuracy (coords position) with
  | Some a => isFinite a = false
  | None => True
  end ->
  step_ s (PositionUpdate position)
  = if valid_coordinates position
    then set_bestPosition (Some position) s else s.
Proof.
  intros Hc Hh Ha. apply update_below_threshold; try assumption.
  unfold accuracyValue.
  destruct (accuracy (coords position)) as [a|]; [rewrite Ha|]; reflexivity.
Qed.

Lemma city_of_nonempty data n :
  city_of String_trim data = Some n -> is_empty n = false.
Proof.
  unfold city_of. destruct data as [[[|[[city|]] rest]]|]; try discriminate.
  destruct (is_empty (String_trim city)) eqn:E; [discriminate|].
  now intros H; injection H as <-.
Qed.

Lemma or_else_left x d : is_empty x = false -> or_else x d = x.
Proof. destruct x; [discriminate|reflexivity]. Qed.


(** X11: A failed check of the weather responses ends the run in the error
    state with the thrown message, the weather cleared, and no request
    for the place name; a failure of the current-conditions request
    takes precedence over everything about the forecast. *)
Theorem fetch_failure_shows_error
        (s : state) (lat lon : number) (currentRes forecastRes : Response)
        (currentJson : option CurrentJson)
        (forecastJson : option ForecastJson) (msg : string) :
  pending s = TAwaitBodies lat lon currentRes forecastRes ->
  isCancelled s = false ->
  check_bodies Date_parse TIME_FORMATTER_format currentRes forecastRes
               currentJson forecastJson = inl msg ->
  render (trace (step_ s (WeatherBodies currentJson forecastJson)))
  = {| weather := None; hourlyForecast := []; loading := false;
       error := Some msg |}
  /\ pending (step_ s (WeatherBodies currentJson forecastJson)) = TDone
  /\ filter is_request
       (trace (step_ s (WeatherBodies currentJson forecastJson)))
     = filter is_request (trace s)
  /\ (ok currentRes = false ->
      msg = http_error currentRes (current_detail currentJson)).
Proof.
  intros Hp Hc Hchk.
  pose proof (check_bodies_sound currentRes forecastRes currentJson
                forecastJson) as Hs.
  rewrite Hchk in Hs. destruct Hs as (Hne & Hcur & _).
  destruct s as [c w f b h q tr]. cbn in Hp, Hc. subst.
  eval_handlers. rewrite Hchk. eval_handlers.
  cbn [error_message]. rewrite (or_else_left _ _ Hne).
  repeat split; filters'; try reflexivity; try assumption.
  rewrite !render_app; cbn [fold_left apply_effect].
  destruct (render tr); reflexivity.
Qed.

(** X12: The weather and the forecast shown come only from responses that
    passed every check: both successful, a numeric temperature, a first
    weather descriptor, and a non-empty forecast list whose sample is
    non-empty. *)
Theorem snapshot_only_from_valid_responses
        (s : state) (lat lon : number) (currentRes forecastRes : Response)
        (currentJson : option CurrentJson)
        (forecastJson : option ForecastJson)
        (current : Weather) (hourlyData : list HourlyForecastPoint)
        (g : geocode_phase) :
  pending s = TAwaitBodies lat lon currentRes forecastRes ->
  pending (step_ s (WeatherBodies currentJson forecastJson))
  = TAwaitGeocode current hourlyData g ->
  ok currentRes = true /\ ok forecastRes = true
  /\ exists cj fj t w0 rest records,
      currentJson = Some cj /\ forecastJson = Some fj
      /\ cj_main_temp cj = Some t
      /\ cj_weather cj = Some (Some w0 :: rest)
      /\ fj_list fj = Some records /\ records <> []
      /\ hourlyData
         = buildThreeHourlyForecast Date_parse TIME_FORMATTER_format records
      /\ hourlyData <> []
      /\ (List.length hourlyData <= 8)%nat
      /\ current = {| name := cj_name cj; w_temp := t;
                      w_description := description w0;
                      iconCode := icon w0 |}.
Proof.
  intros Hp Hnext.
  pose proof (check_bodies_sound currentRes forecastRes currentJson
                forecastJson) as Hs.
  destruct s as [c w f b h q tr]. cbn in Hp. subst.
  revert Hnext. eval_handlers.
  destruct (check_bodies _ _ _ _ _ _) as [msg|[cur hd]].
  - destruct (is_abort (Error msg) || c)%bool; eval_handlers;
      repeat (break_match; eval_handlers); discriminate.
  - destruct (is_empty OPENCAGE_API_KEY); eval_handlers;
      intros H; injection H as <- <- _; exact Hs.
Qed.

Lemma step_without_weather_key s ev :
  is_empty OPENWEATHER_API_KEY = true ->
  pending s = TIdle ->
  pending (step_ s ev) = TIdle
  /\ filter is_request (trace (step_ s ev)) = filter is_request (trace s).
Proof.
  intros Hkey Hp.
  destruct s as [c [w|] [f|] b h q tr]; cbn in Hp; subst;
    destruct ev; eval_handlers; rewrite ?Hkey;
    repeat (break_match; eval_handlers; rewrite ?Hkey);
    split; filters'; reflexivity.
Qed.

(** X13: Without a weather key no request is ever sent, in any order of
    callbacks, and a fix that would have been fetched ends the run with
    the missing-key message instead. *)
Theorem missing_weather_key_sends_nothing
        (watch timer : nat) (evs : list event) :
  is_empty OPENWEATHER_API_KEY = true ->
  let s := run_unguarded_ (mounted watch timer) evs in
  filter is_request (trace s) = []
  /\ pending s = TIdle
  /\ (forall position,
         isCancelled s = false ->
         hasFetched s = false ->
         valid_coordinates position = true ->
         leb (accuracyValue position) MIN_LOCATION_ACCURACY_METERS = true ->
         render (trace (step_ s (PositionUpdate position)))
         = {| weather := None; hourlyForecast := []; loading := false;
              error := Some "Missing OpenWeatherMap API key (VITE_OPENWEATHER_API_KEY)."%string |}).
Proof.
  intros Hkey s.
  assert (H : pending s = TIdle /\ filter is_request (trace s) = []).
  { subst s.
    assert (G : forall s0,
               pending s0 = TIdle -> filter is_request (trace s0) = [] ->
               pending (run_unguarded_ s0 evs) = TIdle
               /\ filter is_request (trace (run_unguarded_ s0 evs)) = []).
    { induction evs as [|ev evs IH]; intros s0 Hp Ht; [auto|].
      cbn [run_unguarded fold_left].
      destruct (step_without_weather_key s0 ev Hkey Hp) as [Hp' Ht'].
      apply IH; congruence. }
    apply G; reflexivity. }
  destruct H as [Hp Ht]. split; [exact Ht|]. split; [exact Hp|].
  intros position Hc Hh Hv Hacc. clearbody s.
  unfold valid_coordinates, not_a_number in Hv.
  destruct position as [[[la|] [lo|] acc] ts]; cbn in Hv;
    rewrite ?orb_true_r in Hv; try discriminate.
  apply negb_true_iff, orb_false_iff in Hv. destruct Hv as [Hla Hlo].
  destruct s as [c [w|] [f|] b h q tr]; cbn in Hc, Hh; subst;
    eval_handlers; unfold not_a_number;
    cbn [latitude longitude coords];
    rewrite Hla, Hlo, Hacc, Hkey; cbn [orb];
    rewrite !render_app; cbn [fold_left apply_effect];
    destruct (render tr); reflexivity.
Qed.

Lemma step_without_geocode_key s ev :
  is_empty OPENCAGE_API_KEY = true ->
  filter is_geocode_request (trace (step_ s ev))
  = filter is_geocode_request (trace s).
Proof.
  intros Hkey.
  destruct s as [c [w|] [f|] b h q tr];
    destruct ev; eval_handlers; rewrite ?Hkey;
    repeat (break_match; eval_handlers; rewrite ?Hkey);
    filters'; reflexivity.
Qed.


Lemma deliver_unsupported s ev :
  watchId s = None -> fallbackTimer s = None -> pending s = TIdle ->
  let s' := deliver OPENWEATHER_API_KEY OPENCAGE_API_KEY Date_parse
                    TIME_FORMATTER_format String_trim s ev in
  watchId s' = None /\ fallbackTimer s' = None /\ pending s' = TIdle
  /\ filter is_setter (trace s') = filter is_setter (trace s)
  /\ filter is_request (trace s') = filter is_request (trace s)
  /\ filter is_fetch_call (trace s') = filter is_fetch_call (trace s).
Proof.
  intros Hw Hf Hp. unfold deliver, enabled.
  destruct s as [c w f b h q tr]; cbn in Hw, Hf, Hp; subst;
    destruct ev, c; eval_handlers; repeat split; filters'; reflexivity.
Qed.

(** X15: Without geolocation support the component shows its error at once
    and nothing else ever happens: no fetch, no request, no further
    change of what is shown. *)
Theorem unsupported_geolocation_is_final (evs : list event) :
  let s := run_ unsupported evs in
  render (trace s)
  = {| weather := None; hourlyForecast := []; loading := false;
       error := Some "Geolocation is not supported by your browser."%string |}
  /\ SectionCards_render (render (trace s))
     = ErrorText "Geolocation is not supported by your browser."
  /\ filter is_request (trace s) = []
  /\ filter is_fetch_call (trace s) = [].
Proof.
  intros s.
  assert (H : watchId s = None /\ fallbackTimer s = None /\ pending s = TIdle
              /\ filter is_setter (trace s) = filter is_setter (trace unsupported)
              /\ filter is_request (trace s) = []
              /\ filter is_fetch_call (trace s) = []).
  { subst s.
    assert (G : forall s0,
               watchId s0 = None -> fallbackTimer s0 = None ->
               pending s0 = TIdle ->
               let s1 := run_ s0 evs in
               watchId s1 = None /\ fallbackTimer s1 = None
               /\ pending s1 = TIdle
               /\ filter is_setter (trace s1) = filter is_setter (trace s0)
               /\ filter is_request (trace s1) = filter is_request (trace s0)
               /\ filter is_fetch_call (trace s1)
                  = filter is_fetch_call (trace s0)).
    { induction evs as [|ev evs IH]; intros s0 Hw Hf Hp; [repeat split; auto|].
      cbn [run fold_left].
      destruct (deliver_unsupported s0 ev Hw Hf Hp)
        as (Hw' & Hf' & Hp' & H1 & H2 & H3).
      destruct (IH _ Hw' Hf' Hp') as (? & ? & ? & H4 & H5 & H6).
      unfold run in *. repeat split; congruence. }
    apply (G unsupported); reflexivity. }
  destruct H as (_ & _ & _ & Hs & Hr & Hf).
  apply render_same_setters in Hs.
  split; [rewrite Hs; reflexivity|].
  split; [rewrite Hs; reflexivity|]. split; assumption.
Qed.

Lemma step_keeps_best_valid s ev :
  (forall p, bestPosition s = Some p -> valid_coordinates p = true) ->
  forall p, bestPosition (step_ s ev) = Some p -> valid_coordinates p = true.
Proof.
  intros H. unfold valid_coordinates.
  destruct s as [c [w|] [f|] b h q tr]; cbn [bestPosition] in H;
    destruct ev; eval_handlers;
    repeat (break_match; eval_handlers); try exact H;
    intros p' E; injection E as <-;
    repeat match goal with
      | E : latitude _ = _ |- _ => rewrite E; clear E
      | E : longitude _ = _ |- _ => rewrite E; clear E
      | E : not_a_number _ = _ |- _ => rewrite E; clear E
      end; reflexivity.
Qed.

(** X16: The fix kept as the best one, and hence any fix ever fetched on
    the timer or on a stream error, always has numeric, non-NaN
    coordinates. *)
Theorem best_position_is_always_valid
        (watch timer : nat) (evs : list event) (p : GeolocationPosition) :
  bestPosition (run_unguarded_ (mounted watch timer) evs) = Some p ->
  valid_coordinates p = true.
Proof.
  revert p.
  assert (G : forall s,
             (forall p, bestPosition s = Some p -> valid_coordinates p = true) ->
             forall p, bestPosition (run_unguarded_ s evs) = Some p ->
                       valid_coordinates p = true).
  { induction evs as [|ev evs IH]; intros s H; [exact H|].
    cbn [run_unguarded fold_left]. apply IH, step_keeps_best_valid, H. }
  apply G. discriminate.
Qed.

End PipelineExtras.

(** * Examples *)

Local Open Scope string_scope.

(** C1, as stated, fails: a later update of 500 m replaces an earlier one
    of 150 m, and the timer then fetches with the 500 m fix. *)
Lemma later_worse_fix_replaces_better :
  let s := run "key" "" example_Date_parse example_format example_trim
               (mounted 1 2) [PositionUpdate fix_150m; PositionUpdate fix_500m] in
  ltb (accuracyValue fix_150m) (accuracyValue fix_500m) = true
  /\ most_accurate [fix_150m; fix_500m] = Some fix_150m
  /\ bestPosition s = Some fix_500m
  /\ bestPosition s <> most_accurate [fix_150m; fix_500m]
  /\ filter is_fetch_call
       (trace (step "key" "" example_Date_parse example_format example_trim
                    s TimerFired))
     = [CallFetchWeather fix_500m].
Proof.
  vm_compute. repeat split; try reflexivity. discriminate.
Qed.

Lemma best_position_is_latest_valid_witness :
  bestPosition
    (run "key" "" example_Date_parse example_format example_trim
         (mounted 1 2) (map PositionUpdate [fix_150m; fix_500m; fix_at NaN (ofZ 0) (ofZ 300) 6]))
  = Some fix_500m.
Proof.
  destruct (best_position_is_latest_valid
              "key" "" example_Date_parse example_format example_trim
              1%nat 2%nat [fix_150m; fix_500m; fix_at NaN (ofZ 0) (ofZ 300) 6]) as [H _].
  - repeat (apply Forall_cons; [reflexivity|]). apply Forall_nil.
  - exact H.
Defined.


(** C3, as stated, fails: with no fix the timer reports a message of its
    own, not the message of the stream's timeout error. *)
Lemma timer_without_fix_is_not_timeout :
  error (render (trace (step "key" "" example_Date_parse example_format
                          example_trim (mounted 1 2) TimerFired)))
  = Some "Unable to refine your location."
  /\ describeGeoError timeout_error
     = "Timed out while trying to retrieve your location."
  /\ error (render (trace (step "key" "" example_Date_parse example_format
                             example_trim (mounted 1 2) TimerFired)))
     <> Some (describeGeoError timeout_error).
Proof.
  vm_compute. repeat split; discriminate.
Qed.

Lemma fallback_timer_outcome_witness :
  render (trace (step "key" "" example_Date_parse example_format example_trim
                   (mounted 1 2) TimerFired))
  = {| weather := None; hourlyForecast := []; loading := false;
       error := Some "Unable to refine your location." |}.
Proof.
  destruct (fallback_timer_outcome
              "key" "" example_Date_parse example_format example_trim
              (mounted 1 2) eq_refl eq_refl) as (_ & H & _).
  exact (proj1 (proj2 (H eq_refl))).
Defined.

(** C4, as stated, fails: an update whose latitude is +infinity is kept as
    the best fix and fetched, and the check before the requests lets it
    through. *)
Lemma infinite_latitude_is_fetched :
  let s := step "key" "" example_Date_parse example_format example_trim
                (mounted 1 2) (PositionUpdate fix_infinite) in
  latitude (coords fix_infinite) = Some POSITIVE_INFINITY
  /\ isFinite POSITIVE_INFINITY = false
  /\ bestPosition s = Some fix_infinite
  /\ filter is_fetch_call (trace s) = [CallFetchWeather fix_infinite]
  /\ filter is_weather_request (trace s)
     = [HttpGet (GetCurrentWeather POSITIVE_INFINITY (ofZ 0));
        HttpGet (GetForecast POSITIVE_INFINITY (ofZ 0))]
  /\ error (render (trace s)) = None.
Proof.
  vm_compute. repeat split.
Qed.

Lemma nan_coordinates_are_discarded_witness :
  step "key" "" example_Date_parse example_format example_trim
       (mounted 1 2) (PositionUpdate fix_nan)
  = mounted 1 2.
Proof.
  apply (nan_coordinates_are_discarded
           "key" "" example_Date_parse example_format example_trim
           fix_nan (mounted 1 2)).
  reflexivity.
Defined.

(** C8, as stated, fails: when the weather requests are issued no
    geocoding request is; none is issued when the responses arrive
    either; it is issued once the bodies have been read and checked. *)
Lemma geocode_request_waits_for_weather :
  let step' := step "key" "geokey" example_Date_parse example_format
                    example_trim in
  let s1 := step' (mounted 1 2) (PositionUpdate fix_20m) in
  let s2 := step' s1 (WeatherSettled
                        (Resolved (example_response, example_response))) in
  let s3 := step' s2 (WeatherBodies (Some example_current)
                                    (Some example_forecast)) in
  filter is_weather_request (trace s1)
  = [HttpGet (GetCurrentWeather (decimal 356812 4) (decimal 1397671 4));
     HttpGet (GetForecast (decimal 356812 4) (decimal 1397671 4))]
  /\ pending s1 = TAwaitResponses (decimal 356812 4) (decimal 1397671 4)
  /\ filter is_geocode_request (trace s1) = []
  /\ filter is_geocode_request (trace s2) = []
  /\ filter is_geocode_request (trace s3)
     = [HttpGet (GetReverseGeocode (decimal 356812 4) (decimal 1397671 4))].
Proof.
  vm_compute. repeat split.
Qed.

Lemma geocode_request_follows_weather_witness :
  trace (step "key" "geokey" example_Date_parse example_format example_trim
              example_awaiting_bodies
              (WeatherBodies (Some example_current) (Some example_forecast)))
  = [HttpGet (GetReverseGeocode (decimal 356812 4) (decimal 1397671 4))].
Proof.
  destruct (geocode_request_follows_weather
              "key" "geokey" example_Date_parse example_format example_trim
              example_awaiting_bodies
              (WeatherBodies (Some example_current) (Some example_forecast)))
    as [H _].
  destruct H as (lat & lon & r1 & r2 & j1 & j2 & r & Hp & _ & _ & _ & _ & Ht & _).
  - vm_compute. discriminate.
  - rewrite Ht. injection Hp as <- <- _ _. reflexivity.
Defined.

Lemma error_clears_weather_witness :
  weather (render (trace (step "key" "" example_Date_parse example_format
                            example_trim (mounted 1 2)
                            (PositionError timeout_error)))) = None.
Proof.
  destruct (error_clears_weather
              "key" "" example_Date_parse example_format example_trim)
    as [H _].
  apply (H (mounted 1 2) (PositionError timeout_error)
           "Timed out while trying to retrieve your location.").
  vm_compute. do 4 right. left. reflexivity.
Defined.


Lemma ready_has_forecast_witness :
  hourlyForecast
    (render (trace (run_unguarded "key" "" example_Date_parse example_format
                      example_trim (mounted 1 2)
                      [PositionUpdate fix_20m;
                       WeatherSettled (Resolved (example_response, example_response));
                       WeatherBodies (Some example_current) (Some example_forecast);
                       GeocodeSkipped])))
  <> [].
Proof.
  eapply (proj1 (ready_has_forecast "key" "" example_Date_parse example_format
                   example_trim 1%nat 2%nat _)).
  reflexivity.
Defined.

Lemma error_messages_are_shown_witness :
  SectionCards_render
    (render (trace (run_unguarded "key" "" example_Date_parse example_format
                      example_trim (mounted 1 2) [TimerFired])))
  = ErrorText "Unable to refine your location.".
Proof.
  apply (error_messages_are_shown "key" "" example_Date_parse example_format
           example_trim 1%nat 2%nat [TimerFired]); reflexivity.
Defined.

Lemma loading_until_fetch_ends_witness :
  SectionCards_render
    (render (trace (run "key" "" example_Date_parse example_format
                      example_trim (mounted 1 2) [PositionUpdate fix_20m])))
  = Skeleton.
Proof.
  apply (loading_until_fetch_ends "key" "" example_Date_parse example_format
           example_trim 1%nat 2%nat [PositionUpdate fix_20m]); reflexivity.
Defined.

Lemma stream_error_acts_as_timer_witness :
  step "key" "" example_Date_parse example_format example_trim
       (set_bestPosition (Some fix_500m) (mounted 1 2))
       (PositionError timeout_error)
  = step "key" "" example_Date_parse example_format example_trim
         (set_bestPosition (Some fix_500m) (mounted 1 2)) TimerFired.
Proof.
  apply (stream_error_acts_as_timer "key" "" example_Date_parse example_format
           example_trim (set_bestPosition (Some fix_500m) (mounted 1 2))
           timeout_error).
  - reflexivity.
  - discriminate.
Defined.

Lemma unknown_accuracy_never_triggers_witness :
  step "key" "" example_Date_parse example_format example_trim (mounted 1 2)
       (PositionUpdate (fix_at (ofZ 35) (ofZ 139) NEGATIVE_INFINITY 7))
  = set_bestPosition
      (Some (fix_at (ofZ 35) (ofZ 139) NEGATIVE_INFINITY 7)) (mounted 1 2).
Proof.
  apply (unknown_accuracy_never_triggers "key" "" example_Date_parse
           example_format example_trim
           (fix_at (ofZ 35) (ofZ 139) NEGATIVE_INFINITY 7) (mounted 1 2));
    reflexivity.
Defined.


Lemma fetch_failure_shows_error_witness :
  error
    (render (trace (step "key" "geokey" example_Date_parse example_format
                      example_trim
                      (set_pending
                         (TAwaitBodies (ofZ 35) (ofZ 139)
                            example_unauthorized example_response)
                         example_awaiting_bodies)
                      (WeatherBodies (Some example_invalid_key) None))))
  = Some "401 invalid key".
Proof.
  rewrite (proj1 (fetch_failure_shows_error
                    "key" "geokey" example_Date_parse example_format
                    example_trim
                    (set_pending
                       (TAwaitBodies (ofZ 35) (ofZ 139)
                          example_unauthorized example_response)
                       example_awaiting_bodies)
                    (ofZ 35) (ofZ 139) example_unauthorized example_response
                    (Some example_invalid_key) None "401 invalid key"
                    eq_refl eq_refl eq_refl)).
  reflexivity.
Defined.

Lemma snapshot_only_from_valid_responses_witness :
  ok example_response = true.
Proof.
  apply (snapshot_only_from_valid_responses
           "key" "geokey" example_Date_parse example_format example_trim
           example_awaiting_bodies _ _ example_response example_response
           (Some example_current) (Some example_forecast) _ _ _
           eq_refl eq_refl).
Defined.

Lemma missing_weather_key_sends_nothing_witness :
  filter is_request
    (trace (run_unguarded "" "geokey" example_Date_parse example_format
              example_trim (mounted 1 2)
              [PositionUpdate fix_500m; PositionUpdate fix_20m; TimerFired]))
  = [].
Proof.
  apply (missing_weather_key_sends_nothing
           "" "geokey" example_Date_parse example_format example_trim
           1%nat 2%nat
           [PositionUpdate fix_500m; PositionUpdate fix_20m; TimerFired]).
  reflexivity.
Defined.


Lemma best_position_is_always_valid_witness :
  valid_coordinates fix_500m = true.
Proof.
  apply (best_position_is_always_valid
           "key" "" example_Date_parse example_format example_trim
           1%nat 2%nat [PositionUpdate fix_nan; PositionUpdate fix_500m]).
  reflexivity.
Defined.
